(** * twinmatrix.util.geojson: GeoJSON loading, bounds, projection, ear clipping

    A shallow embedding of [extension.py] (classes [GeoJSONData] and
    [TwinmatrixUtilGeojsonExtension]) and the properties proved about it.

    Modelling conventions.
    - A Python [float] is an IEEE-754 binary64 value: Rocq's primitive
      [float].  JSON numbers are identified with their double value and
      a JSON boolean used as a number with [1.0] / [0.0].  An integer
      literal too large for a double has no such value: the one thing the
      code does with a bound that it cannot do with such an integer is to
      format it, which is why [format_4f] may raise.
    - A raised exception is a value [Raise e] of [result]; statements that
      touch the USD stage run in a state-and-exception monad over [stage].
    - [math.radians], [math.sin], [math.tan], [math.log], [math.pow] and the
      single-precision rounding of [Gf.Vec3f] belong to the platform, not to
      the repository; they are the fields of the class [Platform].
    - The triangulator runs on doubles: [is_valid_ear] builds [Gf.Vec3d]
      values and calls [Gf.Cross], whatever the coordinates are, and the
      emission hands it the doubles read back from [Gf.Vec3f].  It is
      written over a class [Scalar] of arithmetics so that what does not
      depend on the arithmetic is proved once.  Exact integers ([Z]) are
      not the arithmetic of the code: they are the geometry -- signed
      areas, lines, convexity -- that statements about doubles refer to,
      through the exact value of each double ([exact_ring]), and the
      arithmetic of [_point_in_triangle] on integer coordinates.
    - The window is the text field and the four labels that [_on_import]
      and [_update_info_display] read and write; the format [:.4f] of the
      bounds text, which can raise, is the field of the class [Display].
      The widget tree of [on_startup], the file dialog of [_on_browse], the
      menu handlers, [on_shutdown], [some_public_function] and the local
      function [get_area], which nothing calls, are not modelled. *)

From stdpp Require Import gmap.
From Stdlib Require Import String Ascii ZArith List Lia Bool Floats.
From Stdlib Require DecimalString.
Import ListNotations.

Set Warnings "-inexact-float,-register-all".
Local Open Scope nat_scope.

(** ** Python values and exceptions *)

Inductive exn :=
| KeyError | TypeError | IndexError | ValueError | AttributeError
| ZeroDivisionError | OverflowError | FileNotFoundError | JSONDecodeError
| OSError.

Inductive result (A : Type) :=
| Ok (a : A)
| Raise (e : exn).
Arguments Ok {A} a.
Arguments Raise {A} e.

Definition rbind {A B} (m : result A) (k : A -> result B) : result B :=
  match m with
  | Ok a => k a
  | Raise e => Raise e
  end.

Declare Scope result_scope.
Delimit Scope result_scope with result.
Notation "x <- m ;; k" := (rbind m (fun x => k))
  (at level 100, m at next level, right associativity) : result_scope.
Local Open Scope result_scope.

(** [for x in l: acc = step(acc, x)], stopping at the first exception. *)
Fixpoint rfold {A B} (step : A -> B -> result A) (acc : A) (l : list B) : result A :=
  match l with
  | [] => Ok acc
  | x :: l' => acc' <- step acc x ;; rfold step acc' l'
  end.

(** [[f(x) for x in l]], stopping at the first exception. *)
Fixpoint rmap {A B} (f : A -> result B) (l : list A) : result (list B) :=
  match l with
  | [] => Ok []
  | x :: l' => y <- f x ;; ys <- rmap f l' ;; Ok (y :: ys)
  end.

(** What [json.load] returns.  An object keeps its keys in insertion
    order, as a Python [dict] does. *)
Inductive json :=
| JNull
| JBool (b : bool)
| JNum (x : float)
| JStr (s : string)
| JArr (l : list json)
| JObj (m : list (string * json)).

Fixpoint assoc (k : string) (m : list (string * json)) : option json :=
  match m with
  | [] => None
  | (k', v) :: m' => if String.eqb k' k then Some v else assoc k m'
  end.

(** [d[k]] for a string key [k]. *)
Definition py_getitem (d : json) (k : string) : result json :=
  match d with
  | JObj m => match assoc k m with Some v => Ok v | None => Raise KeyError end
  | _ => Raise TypeError
  end.

(** [d.get(k, default)]. *)
Definition py_get (d : json) (k : string) (default : json) : result json :=
  match d with
  | JObj m => Ok (match assoc k m with Some v => v | None => default end)
  | _ => Raise AttributeError
  end.

Fixpoint chars (s : string) : list json :=
  match s with
  | EmptyString => []
  | String c s' => JStr (String c EmptyString) :: chars s'
  end.

(** [iter(v)] run to the end. *)
Definition py_iter (v : json) : result (list json) :=
  match v with
  | JArr l => Ok l
  | JStr s => Ok (chars s)
  | JObj m => Ok (map (fun kv => JStr (fst kv)) m)
  | _ => Raise TypeError
  end.

(** [v[i]] for a non-negative integer literal [i]. *)
Definition py_index (v : json) (i : nat) : result json :=
  match v with
  | JArr l => match nth_error l i with Some x => Ok x | None => Raise IndexError end
  | JStr s => match nth_error (chars s) i with Some x => Ok x | None => Raise IndexError end
  | JObj _ => Raise KeyError
  | _ => Raise TypeError
  end.

(** [len(v)]. *)
Definition py_len (v : json) : result nat :=
  match v with
  | JArr l => Ok (length l)
  | JStr s => Ok (String.length s)
  | JObj m => Ok (length m)
  | _ => Raise TypeError
  end.

(** [bool(v)]. *)
Definition py_truthy (v : json) : bool :=
  match v with
  | JNull => false
  | JBool b => b
  | JNum x => negb (x =? 0)%float
  | JStr s => negb (String.eqb s "")
  | JArr l => negb (Nat.eqb (length l) 0)
  | JObj m => negb (Nat.eqb (length m) 0)
  end.

(** [v == s] for a string literal [s]. *)
Definition py_eq_str (v : json) (s : string) : bool :=
  match v with
  | JStr t => String.eqb t s
  | _ => false
  end.

(** The number a value stands for where the code compares it with a float
    or hands it to [math.radians]; anything else raises [TypeError]. *)
Definition as_float (v : json) : result float :=
  match v with
  | JNum x => Ok x
  | JBool b => Ok (if b then 1 else 0)%float
  | _ => Raise TypeError
  end.

(** The builtins [min(a, b)] and [max(a, b)] on floats: the first argument
    is kept unless the second compares strictly below (above) it. *)
Definition py_min (a b : float) : float := if (b <? a)%float then b else a.
Definition py_max (a b : float) : float := if (a <? b)%float then b else a.

(** [x / y] on floats. *)
Definition py_div (x y : float) : result float :=
  if (y =? 0)%float then Raise ZeroDivisionError else Ok (x / y)%float.

(** ** Coordinates and points *)

(** The arithmetic the triangulator performs on coordinates: [-], [*],
    [==], [<], [<=] and the literal [0]. *)
Class Scalar (R : Type) := {
  s_zero : R;
  s_sub : R -> R -> R;
  s_mul : R -> R -> R;
  s_eqb : R -> R -> bool;
  s_ltb : R -> R -> bool;
  s_leb : R -> R -> bool
}.

(** Doubles: what [Gf.Vec3f] components read back as during emission. *)
#[export] Instance Scalar_float : Scalar float :=
  {| s_zero := 0%float; s_sub := PrimFloat.sub; s_mul := PrimFloat.mul;
     s_eqb := PrimFloat.eqb; s_ltb := PrimFloat.ltb; s_leb := PrimFloat.leb |}.

(** Exact integers, on which no operation rounds.  This is not the
    arithmetic of [is_valid_ear], which is binary64 for any coordinates;
    it is the arithmetic of [_point_in_triangle] on [int] coordinates and
    the exact geometry to which the statements about doubles refer. *)
#[export] Instance Scalar_Z : Scalar Z :=
  {| s_zero := 0%Z; s_sub := Z.sub; s_mul := Z.mul;
     s_eqb := Z.eqb; s_ltb := Z.ltb; s_leb := Z.leb |}.

(** A point [p], read as [p[0]], [p[1]], [p[2]]. *)
Record Vec3 (R : Type) := mkVec3 { vx : R; vy : R; vz : R }.
Arguments mkVec3 {R} _ _ _.
Arguments vx {R} _.
Arguments vy {R} _.
Arguments vz {R} _.

(** ** List primitives of the triangulator *)

(** [l.index(i)]: the position of the first occurrence.  ([ValueError] on
    a missing element is not modelled: [i] is always drawn from [l].) *)
Fixpoint list_index (i : nat) (l : list nat) : nat :=
  match l with
  | [] => 0
  | x :: l' => if Nat.eqb x i then 0 else S (list_index i l')
  end.

(** [l.remove(i)]: drops the first occurrence. *)
Fixpoint list_remove (i : nat) (l : list nat) : list nat :=
  match l with
  | [] => []
  | x :: l' => if Nat.eqb x i then l' else x :: list_remove i l'
  end.

(** [a % n], Python's floored remainder, for a positive length [n]. *)
Definition py_mod (a : Z) (n : nat) : nat := Z.to_nat (a mod Z.of_nat n).

(** [remaining[(remaining.index(i) - 1) % len(remaining)]]. *)
Definition prev_of (remaining : list nat) (i : nat) : nat :=
  nth (py_mod (Z.of_nat (list_index i remaining) - 1) (length remaining)) remaining 0.

(** [remaining[(remaining.index(i) + 1) % len(remaining)]]. *)
Definition next_of (remaining : list nat) (i : nat) : nat :=
  nth (py_mod (Z.of_nat (list_index i remaining) + 1) (length remaining)) remaining 0.

(** ** The triangulator ([_triangulate_polygon], [_point_in_triangle]) *)

Section Triangulator.
Context {R : Type} `{Scalar R}.

Local Infix "-" := s_sub.
Local Infix "*" := s_mul.

Definition vec_zero : Vec3 R := mkVec3 s_zero s_zero s_zero.

(** [p == q] on points: componentwise. *)
Definition vec_eqb (p q : Vec3 R) : bool :=
  s_eqb (vx p) (vx q) && s_eqb (vy p) (vy q) && s_eqb (vz p) (vz q).

(** [Gf.Cross(v1, v2)]. *)
Definition GfCross (v1 v2 : Vec3 R) : Vec3 R :=
  mkVec3 (vy v1 * vz v2 - vz v1 * vy v2)
         (vz v1 * vx v2 - vx v1 * vz v2)
         (vx v1 * vy v2 - vy v1 * vx v2).

(** [cross[1]] of [is_valid_ear]: the Y component of [(p2 - p1) x (p3 - p2)]. *)
Definition cross_y (p1 p2 p3 : Vec3 R) : R :=
  let v1 := mkVec3 (vx p2 - vx p1) (vy p2 - vy p1) (vz p2 - vz p1) in
  let v2 := mkVec3 (vx p3 - vx p2) (vy p3 - vy p2) (vz p3 - vz p2) in
  vy (GfCross v1 v2).

(** The local function [sign] of [_point_in_triangle]. *)
Definition sign (p1 p2 p3 : Vec3 R) : R :=
  (vx p1 - vx p3) * (vz p2 - vz p3) - (vx p2 - vx p3) * (vz p1 - vz p3).

Definition point_in_triangle (p a b c : Vec3 R) : bool :=
  let d1 := sign p a b in
  let d2 := sign p b c in
  let d3 := sign p c a in
  let has_neg := s_ltb d1 s_zero || s_ltb d2 s_zero || s_ltb d3 s_zero in
  let has_pos := s_ltb s_zero d1 || s_ltb s_zero d2 || s_ltb s_zero d3 in
  negb (has_neg && has_pos).

(** The closure [is_valid_ear(i)], with the captured [vertices] and
    [remaining] as arguments. *)
Definition is_valid_ear (vertices : list (Vec3 R)) (remaining : list nat) (i : nat) : bool :=
  let size := length remaining in
  if size <? 3 then false else
  let prev_idx := prev_of remaining i in
  let next_idx := next_of remaining i in
  let p1 := nth prev_idx vertices vec_zero in
  let p2 := nth i vertices vec_zero in
  let p3 := nth next_idx vertices vec_zero in
  if s_leb (cross_y p1 p2 p3) s_zero then false else
  forallb (fun j =>
             if Nat.eqb j prev_idx || Nat.eqb j i || Nat.eqb j next_idx then true
             else negb (point_in_triangle (nth j vertices vec_zero) p1 p2 p3))
          remaining.

(** The main loop, [while len(remaining) > 3: ...], returning the final
    [(remaining, indices)].  Every iteration that does not [break] removes
    one index, so [fuel = len(remaining)] is never exhausted
    (lemma [ear_loop_unfold]). *)
Fixpoint ear_loop (vertices : list (Vec3 R)) (fuel : nat)
         (remaining indices : list nat) : list nat * list nat :=
  match fuel with
  | O => (remaining, indices)
  | S fuel' =>
      if 3 <? length remaining then
        match find (is_valid_ear vertices remaining) remaining with
        | Some i =>
            ear_loop vertices fuel' (list_remove i remaining)
                     (indices ++ [prev_of remaining i; i; next_of remaining i])
        | None => (remaining, indices)
        end
      else (remaining, indices)
  end.

(** [vertices]: the working array after closing the ring and dropping
    the duplicate end point ([points[:-1]]). *)
Definition working_vertices (points : list (Vec3 R)) : list (Vec3 R) :=
  match points with
  | [] => []
  | p0 :: _ =>
      removelast (if negb (vec_eqb p0 (last points p0)) then points ++ [p0] else points)
  end.

(** The loop run from [remaining = list(range(len(vertices)))],
    [indices = []]. *)
Definition ear_clipping (vertices : list (Vec3 R)) : list nat * list nat :=
  ear_loop vertices (length vertices) (seq 0 (length vertices)) [].

(** "Add final triangle" and [return indices]. *)
Definition final_indices (state : list nat * list nat) : list nat :=
  let '(remaining, indices) := state in
  if length remaining =? 3 then indices ++ remaining else indices.

Definition triangulate_polygon (points : list (Vec3 R)) : list nat :=
  if length points <? 3 then [] else
  let vertices := working_vertices points in
  if length vertices <? 3 then [] else
  final_indices (ear_clipping vertices).

End Triangulator.

(** ** [GeoJSONData] *)

Record GeoBounds := mkBounds {
  b_min : float * float;
  b_max : float * float
}.

Record GeoJSONData := mkData {
  features : json;
  bounds : option GeoBounds
}.

(** [GeoJSONData.__init__]. *)
Definition init_data : GeoJSONData := mkData (JArr []) None.

Definition get_feature_coordinates (feature : json) : result (list json) :=
  geometry <- py_getitem feature "geometry" ;;
  t <- py_getitem geometry "type" ;;
  if py_eq_str t "Point" then
    c <- py_getitem geometry "coordinates" ;; Ok [c]
  else if py_eq_str t "LineString" then
    c <- py_getitem geometry "coordinates" ;; py_iter c
  else if py_eq_str t "Polygon" then
    c <- py_getitem geometry "coordinates" ;;
    rings <- py_iter c ;;
    rfold (fun coords ring => l <- py_iter ring ;; Ok (coords ++ l)) [] rings
  else Ok [].

(** The running [(min_x, min_y, max_x, max_y)] of [_calculate_bounds]. *)
Record fold_state := mkFold {
  min_x : float; min_y : float; max_x : float; max_y : float
}.

Definition fold_seed : fold_state :=
  mkFold infinity infinity neg_infinity neg_infinity.

(** The body of [for coord in coords]. *)
Definition bounds_coord (s : fold_state) (coord : json) : result fold_state :=
  c0 <- py_index coord 0 ;;
  x <- as_float c0 ;;
  c1 <- py_index coord 1 ;;
  y <- as_float c1 ;;
  Ok (mkFold (py_min (min_x s) x) (py_min (min_y s) y)
             (py_max (max_x s) x) (py_max (max_y s) y)).

(** The body of [for feature in self.features]. *)
Definition bounds_feature (s : fold_state) (feature : json) : result fold_state :=
  coords <- get_feature_coordinates feature ;;
  rfold bounds_coord s coords.

(** [_calculate_bounds]: the new value of [self.bounds]. *)
Definition calculate_bounds (fs : json) : result (option GeoBounds) :=
  if negb (py_truthy fs) then Ok None else
  l <- py_iter fs ;;
  s <- rfold bounds_feature fold_seed l ;;
  Ok (Some (mkBounds (min_x s, min_y s) (max_x s, max_y s))).

Definition valid_type (t : json) : bool :=
  py_eq_str t "FeatureCollection" || py_eq_str t "Feature".

(** The [try] block of [load_from_file] after [json.load]: the state it
    leaves and whether it completed. *)
Definition load_data (self : GeoJSONData) (data : json) : GeoJSONData * result unit :=
  match
    (_ <- py_get data "type" (JStr "unknown") ;;
     t <- py_get data "type" JNull ;;
     if negb (valid_type t) then Raise ValueError else
     t' <- py_getitem data "type" ;;
     if py_eq_str t' "Feature" then Ok (JArr [data])
     else py_get data "features" (JArr []))
  with
  | Raise e => (self, Raise e)
  | Ok fs =>
      let self := mkData fs (bounds self) in
      match (_ <- py_len fs ;; calculate_bounds fs) with
      | Raise e => (self, Raise e)
      | Ok b => (mkData fs b, Ok tt)
      end
  end.

(** [load_from_file], given what [open] and [json.load] produced for the
    path.  Every handler prints and returns [False]. *)
Definition load_from_file (self : GeoJSONData) (file : result json) : GeoJSONData * bool :=
  match file with
  | Raise _ => (self, false)
  | Ok data =>
      match load_data self data with
      | (self', Ok _) => (self', true)
      | (self', Raise _) => (self', false)
      end
  end.

(** ** The platform: [math] and [Gf.Vec3f] *)

(** What the extension takes from the platform: the [math] functions
    ([math.sin], [math.tan], [math.log] and [math.pow] raise on a domain
    error) and the value a double reads back as after it has been stored in
    a single-precision [Gf.Vec3f]. *)
Class Platform := {
  m_radians : float -> float;
  m_sin : float -> result float;
  m_tan : float -> result float;
  m_log : float -> result float;
  m_pow : float -> float -> result float;
  gf_float : float -> float
}.

(** [math.pi]. *)
Definition math_pi : float := 0x1.921fb54442d18p+1%float.

(** ** The USD stage *)

(** The translate and scale operations of the root Xform. *)
Record transform := mkTransform {
  translate_op : Vec3 float;
  scale_op : Vec3 float
}.

(** The attributes [_create_stage_objects] writes on a mesh. *)
Record mesh_attrs := mkMesh {
  points_attr : list (Vec3 float);
  face_vertex_counts : list nat;
  face_vertex_indices : list nat;
  normals_attr : list (Vec3 float);
  display_color : list (Vec3 float);
  subdivision_scheme : string;
  double_sided : bool
}.

(** The part of the stage under [/World/GeoJSON]: the root Xform (absent,
    or present with or without transform operations) and, by feature
    index [i], the prims [polygon_i] and [polygon_i/mesh] (defined, with
    their attributes once written). *)
Record stage := mkStage {
  root : option (option transform);
  polygons : gmap nat (option mesh_attrs)
}.

(** Statements over the stage: the stage they leave, and their result
    or the exception they raised. *)
Definition M (A : Type) : Type := stage -> stage * result A.

Definition mret {A} (a : A) : M A := fun st => (st, Ok a).

Definition mbind {A B} (m : M A) (k : A -> M B) : M B :=
  fun st =>
    match m st with
    | (st', Ok a) => k a st'
    | (st', Raise e) => (st', Raise e)
    end.

Definition lift {A} (r : result A) : M A := fun st => (st, r).

Notation "x <~ m ;; k" := (mbind m (fun x => k))
  (at level 100, m at next level, right associativity).

(** [UsdGeom.Xform.Define(stage, geojson_path)]. *)
Definition define_root : M unit :=
  fun st =>
    (mkStage (match root st with None => Some None | r => r end) (polygons st), Ok tt).

(** [if not xformable.GetOrderedXformOps(): ...Set(...)]. *)
Definition set_root_ops (t : transform) : M unit :=
  fun st =>
    match root st with
    | Some (Some _) => (st, Ok tt)
    | _ => (mkStage (Some (Some t)) (polygons st), Ok tt)
    end.

(** [UsdGeom.Xform.Define(stage, poly_path)] and
    [UsdGeom.Mesh.Define(stage, poly_path + "/mesh")]. *)
Definition define_polygon (i : nat) : M unit :=
  fun st =>
    (mkStage (root st)
             (match polygons st !! i with
              | None => <[i := None]> (polygons st)
              | Some _ => polygons st
              end), Ok tt).

(** The [mesh.Create...Attr] calls. *)
Definition write_mesh (i : nat) (m : mesh_attrs) : M unit :=
  fun st => (mkStage (root st) (<[i := Some m]> (polygons st)), Ok tt).

Section Emission.
Context `{Platform}.

(** ** The projector ([_geo_to_cartesian]) *)

Definition geo_to_cartesian (lon lat : float) : result (float * float * float) :=
  let a := 6378137.0%float in
  let e := 0.081819190842622%float in
  let lon_rad := m_radians lon in
  let lat_rad := m_radians lat in
  let x := (a * lon_rad)%float in
  t <- m_tan (math_pi / 4 + lat_rad / 2)%float ;;
  s1 <- m_sin lat_rad ;;
  s2 <- m_sin lat_rad ;;
  q <- py_div (1 - e * s1)%float (1 + e * s2)%float ;;
  p <- m_pow q (e / 2)%float ;;
  l <- m_log (t * p)%float ;;
  Ok (x, 0%float, (- a * l)%float).

(** ** Emission ([_create_stage_objects]) *)

(** [bounds_cart]: the X and Z entries of its ["min"] and ["max"] lists. *)
Record cart_box := mkBox {
  box_min_x : float; box_min_z : float; box_max_x : float; box_max_z : float
}.

Definition box_seed : cart_box :=
  mkBox infinity infinity neg_infinity neg_infinity.

(** [self._geo_to_cartesian(coord[0], coord[1])]. *)
Definition project_coord (coord : json) : result (float * float * float) :=
  c0 <- py_index coord 0 ;;
  c1 <- py_index coord 1 ;;
  lon <- as_float c0 ;;
  lat <- as_float c1 ;;
  geo_to_cartesian lon lat.

(** First pass, the body of the inner [for coord in ...]. *)
Definition cart_coord (b : cart_box) (coord : json) : result cart_box :=
  p <- project_coord coord ;;
  let '(x, _, z) := p in
  Ok (mkBox (py_min (box_min_x b) x) (py_min (box_min_z b) z)
            (py_max (box_max_x b) x) (py_max (box_max_z b) z)).

(** First pass, the body of [for feature in features]. *)
Definition cart_feature (b : cart_box) (feature : json) : result cart_box :=
  geometry <- py_get feature "geometry" (JObj []) ;;
  t <- py_get geometry "type" JNull ;;
  if py_eq_str t "Polygon" then
    c <- py_get geometry "coordinates" (JArr [JArr []]) ;;
    ring <- py_index c 0 ;;
    coords <- py_iter ring ;;
    rfold cart_coord b coords
  else Ok b.

Definition box_width (b : cart_box) : float := (box_max_x b - box_min_x b)%float.
Definition box_depth (b : cart_box) : float := (box_max_z b - box_min_z b)%float.

(** [scale = 1.0 / max(width, depth) * 1000]. *)
Definition scale_of (b : cart_box) : result float :=
  r <- py_div 1%float (py_max (box_width b) (box_depth b)) ;;
  Ok (r * 1000)%float.

(** The centre, the scale and the transform set on the root. *)
Definition normalization (b : cart_box) : result transform :=
  let center_x := ((box_min_x b + box_max_x b) / 2)%float in
  let center_z := ((box_min_z b + box_max_z b) / 2)%float in
  scale <- scale_of b ;;
  Ok (mkTransform (mkVec3 (- center_x * scale) 0 (- center_z * scale))%float
                  (mkVec3 scale scale scale)).

(** [Gf.Vec3f(x, y, z)] of a projected coordinate. *)
Definition project_point (coord : json) : result (Vec3 float) :=
  p <- project_coord coord ;;
  let '(x, y, z) := p in
  Ok (mkVec3 (gf_float x) (gf_float y) (gf_float z)).

Definition mesh_of (pts : list (Vec3 float)) (face_indices : list nat) : mesh_attrs :=
  let triangle_count := length face_indices / 3 in
  mkMesh pts (repeat 3 triangle_count) face_indices
         (repeat (mkVec3 (gf_float 0) (gf_float 1) (gf_float 0)) (length pts))
         [mkVec3 (gf_float 0.8) (gf_float 0.8) (gf_float 0.8)]
         "none" true.

(** Second pass, the body of [for i, feature in enumerate(features)]. *)
Definition emit_feature (i : nat) (feature : json) : M unit :=
  geometry <~ lift (py_get feature "geometry" (JObj [])) ;;
  geo_type <~ lift (py_get geometry "type" (JStr "Unknown")) ;;
  if py_eq_str geo_type "Polygon" then
    rings <~ lift (py_get geometry "coordinates" (JArr [])) ;;
    _ <~ lift (py_len rings) ;;
    outer_ring <~ lift (py_index rings 0) ;;
    n <~ lift (py_len outer_ring) ;;
    if n <? 3 then mret tt else
    coords <~ lift (py_iter outer_ring) ;;
    pts <~ lift (rmap project_point coords) ;;
    _ <~ define_polygon i ;;
    let face_indices := triangulate_polygon pts in
    if negb (Nat.eqb (length face_indices) 0)
    then write_mesh i (mesh_of pts face_indices)
    else mret tt
  else if py_eq_str geo_type "MultiPolygon" then
    c <~ lift (py_get geometry "coordinates" (JArr [])) ;;
    _ <~ lift (py_len c) ;;
    mret tt
  else mret tt.

Fixpoint emit_features (i : nat) (l : list json) : M unit :=
  match l with
  | [] => mret tt
  | feature :: l' => _ <~ emit_feature i feature ;; emit_features (S i) l'
  end.

(** [_create_stage_objects] on a stage that exists. *)
Definition create_objects (fs : json) : M unit :=
  _ <~ lift (py_len fs) ;;
  _ <~ define_root ;;
  l <~ lift (py_iter fs) ;;
  b <~ lift (rfold cart_feature box_seed l) ;;
  t <~ lift (normalization b) ;;
  _ <~ set_root_ops t ;;
  emit_features 0 l.

(** [_create_stage_objects]: without a stage it prints and returns. *)
Definition create_stage_objects (fs : json) (st : option stage) : option stage * result unit :=
  match st with
  | None => (None, Ok tt)
  | Some st => let '(st', r) := create_objects fs st in (Some st', r)
  end.

End Emission.

(** ** The window ([_on_import], [_update_info_display]) *)

(** The format specification [:.4f] of the bounds text, taken from the
    platform.  On a [float] it returns; on an [int] too large for a
    [float] it raises [OverflowError]. *)
Class Display := {
  format_4f : float -> result string
}.

(** [str(n)] of a non-negative [int]. *)
Definition decimal (n : nat) : string :=
  DecimalString.NilEmpty.string_of_uint (Nat.to_uint n).

(** The text field and the four labels of the window. *)
Record ui := mkUi {
  file_path_field : string;
  status_label : string;
  feature_count_label : string;
  bounds_label : string;
  geometry_types_label : string
}.

(** The window as [on_startup] builds it. *)
Definition startup_ui : ui :=
  mkUi "H:\GeoJSON\small\3poly.geojson" "" "Features: 0" "Bounds: None"
       "Geometry Types: None".

Fixpoint has_substring (k s : string) : bool :=
  prefix k s || match s with
                | EmptyString => false
                | String _ s' => has_substring k s'
                end.

(** [k in v] for a string literal [k]. *)
Definition py_contains (v : json) (k : string) : result bool :=
  match v with
  | JObj m => Ok (match assoc k m with Some _ => true | None => false end)
  | JArr l => Ok (existsb (fun x => py_eq_str x k) l)
  | JStr s => Ok (has_substring k s)
  | _ => Raise TypeError
  end.

(** Whether a value can be put in a [set]. *)
Definition hashable (v : json) : bool :=
  match v with
  | JArr _ | JObj _ => false
  | _ => true
  end.

(** The body of [for feature in self._geojson_data.features] in
    [_update_info_display]; the set is kept as the list of the values
    added. *)
Definition type_step (types : list json) (feature : json) : result (list json) :=
  has <- py_contains feature "geometry" ;;
  if has then
    g <- py_getitem feature "geometry" ;;
    if py_truthy g then
      g' <- py_getitem feature "geometry" ;;
      t <- py_getitem g' "type" ;;
      if hashable t then Ok (types ++ [t]) else Raise TypeError
    else Ok types
  else Ok types.

Fixpoint insert_sorted (s : string) (l : list string) : list string :=
  match l with
  | [] => [s]
  | x :: l' =>
      match String.compare s x with
      | Lt => s :: l
      | Eq => l
      | Gt => x :: insert_sorted s l'
      end
  end.

(** [sorted(set(l))] on strings: by code point, each string once. *)
Definition sorted_set (l : list string) : list string :=
  fold_right insert_sorted [] l.

Definition as_string (v : json) : result string :=
  match v with
  | JStr s => Ok s
  | _ => Raise TypeError
  end.

(** [types_text]: [sorted] or [", ".join] raises [TypeError] as soon as
    one of the values is not a string. *)
Definition types_text (types : list json) : result string :=
  match types with
  | [] => Ok "Geometry Types: None"%string
  | _ =>
      names <- rmap as_string types ;;
      Ok ("Geometry Types: " ++ String.concat ", " (sorted_set names))%string
  end.

Section Window.
Context {platform : Platform} {display : Display}.

Definition bounds_text (b : option GeoBounds) : result string :=
  match b with
  | Some b =>
      min0 <- format_4f (fst (b_min b)) ;;
      min1 <- format_4f (snd (b_min b)) ;;
      max0 <- format_4f (fst (b_max b)) ;;
      max1 <- format_4f (snd (b_max b)) ;;
      Ok ("Bounds: Min(" ++ min0 ++ ", " ++ min1
          ++ "), Max(" ++ max0 ++ ", " ++ max1 ++ ")")%string
  | None => Ok "Bounds: None"%string
  end.

(** [_update_info_display]: the labels it leaves, and whether it raised. *)
Definition update_info_display (data : GeoJSONData) (u : ui) : ui * result unit :=
  match py_len (features data) with
  | Raise e => (u, Raise e)
  | Ok feature_count =>
      let u := mkUi (file_path_field u) (status_label u)
                    ("Features: " ++ decimal feature_count) (bounds_label u)
                    (geometry_types_label u) in
      match bounds_text (bounds data) with
      | Raise e => (u, Raise e)
      | Ok text =>
          let u := mkUi (file_path_field u) (status_label u) (feature_count_label u)
                        text (geometry_types_label u) in
          match (l <- py_iter (features data) ;;
                 types <- rfold type_step [] l ;;
                 types_text types) with
          | Raise e => (u, Raise e)
          | Ok text =>
              (mkUi (file_path_field u) (status_label u) (feature_count_label u)
                    (bounds_label u) text, Ok tt)
          end
      end
  end.

(** The extension: its data, its window and the stage of the USD context
    (absent when there is none). *)
Record app := mkApp {
  geojson_data : GeoJSONData;
  window : ui;
  usd_stage : option stage
}.

Definition set_status (u : ui) (text : string) : ui :=
  mkUi (file_path_field u) text (feature_count_label u) (bounds_label u)
       (geometry_types_label u).

(** [_on_import], given what [open] and [json.load] produce for a path. *)
Definition on_import (read : string -> result json) (a : app) : app * result unit :=
  let file_path := file_path_field (window a) in
  if String.eqb file_path "" then
    (mkApp (geojson_data a) (set_status (window a) "Please select a file first")
           (usd_stage a), Ok tt)
  else
    let '(data, loaded) := load_from_file (geojson_data a) (read file_path) in
    if loaded then
      let u := set_status (window a) "GeoJSON loaded successfully" in
      match update_info_display data u with
      | (u, Raise e) => (mkApp data u (usd_stage a), Raise e)
      | (u, Ok _) =>
          let '(st, r) := create_stage_objects (features data) (usd_stage a) in
          (mkApp data u st, r)
      end
    else
      (mkApp data (set_status (window a) "Failed to load GeoJSON") (usd_stage a), Ok tt).

End Window.

(** * Vocabulary of the statements *)

(** ** Triangles of an index list *)

(** The consecutive index triples of a flat list. *)
Fixpoint triangles (l : list nat) : list (nat * nat * nat) :=
  match l with
  | a :: b :: c :: l' => (a, b, c) :: triangles l'
  | _ => []
  end.

Definition flatten (ts : list (nat * nat * nat)) : list nat :=
  flat_map (fun t => [fst (fst t); snd (fst t); snd t]) ts.

(** The orientation test of [is_valid_ear] on a triple of indices:
    [cross[1] <= 0] is false. *)
Definition ear_test {R : Type} `{Scalar R} (vertices : list (Vec3 R))
           (t : nat * nat * nat) : Prop :=
  s_leb (cross_y (nth (fst (fst t)) vertices vec_zero)
                 (nth (snd (fst t)) vertices vec_zero)
                 (nth (snd t) vertices vec_zero)) s_zero = false.

(** ** Plane geometry on exact coordinates *)

(** A ground-plane point [(x, 0, z)]. *)
Definition zpoint (x z : Z) : Vec3 Z := mkVec3 x 0%Z z.

(** [p -> q -> r] turns counter-clockwise as seen from +Y: the Y component
    of [(q - p) x (r - q)], twice the signed area of the triangle, is
    positive. *)
Definition left_turn (p q r : Vec3 Z) : Prop :=
  (0 < (vz q - vz p) * (vx r - vx q) - (vx q - vx p) * (vz r - vz q))%Z.

(** The triangle of three vertex indices has positive signed area. *)
Definition positive_area (vertices : list (Vec3 Z)) (t : nat * nat * nat) : Prop :=
  left_turn (nth (fst (fst t)) vertices vec_zero)
            (nth (snd (fst t)) vertices vec_zero)
            (nth (snd t) vertices vec_zero).

(** All vertices lie on one line [a x + b z = c] of the X/Z plane. *)
Definition collinear (vertices : list (Vec3 Z)) : Prop :=
  exists a b c : Z, (a <> 0 \/ b <> 0)%Z /\
    Forall (fun p => (a * vx p + b * vz p = c)%Z) vertices.

(** The vertices are in strictly convex position, listed counter-clockwise
    as seen from +Y: any three of them, taken in list order, turn left. *)
Definition convex_ccw (vertices : list (Vec3 Z)) : Prop :=
  forall i j k, i < j -> j < k -> k < length vertices ->
    left_turn (nth i vertices vec_zero) (nth j vertices vec_zero) (nth k vertices vec_zero).

(** Scenario A of the specification, already projected: a closed unit
    square, counter-clockwise. *)
Definition unit_square : list (Vec3 Z) :=
  [zpoint 0 0; zpoint 1 0; zpoint 1 (-1); zpoint 0 (-1); zpoint 0 0].

(** ** The order of doubles *)

(** A key on which the comparison of two doubles that are not NaN is the
    lexicographic order: the class (-inf, negative, zero, positive, +inf),
    then exponent and mantissa, negated for negative numbers. *)
Definition sf_key (f : spec_float) : Z * Z * Z :=
  match f with
  | S754_nan => (0, 0, 0)
  | S754_infinity true => (-2, 0, 0)
  | S754_infinity false => (2, 0, 0)
  | S754_zero _ => (0, 0, 0)
  | S754_finite true m e => (-1, - e, - Zpos m)
  | S754_finite false m e => (1, e, Zpos m)
  end%Z.

Definition key_lt (a b : Z * Z * Z) : Prop :=
  let '(c1, e1, m1) := a in
  let '(c2, e2, m2) := b in
  (c1 < c2 \/ (c1 = c2 /\ (e1 < e2 \/ (e1 = e2 /\ m1 < m2))))%Z.

Definition sf_not_nan (f : spec_float) : Prop := f <> S754_nan.

(** [x] is a number, not NaN: [x == x]. *)
Definition is_number (x : float) : Prop := (x =? x)%float = true.

(** [math.isfinite(x)]. *)
Definition finite (x : float) : Prop :=
  (neg_infinity <? x)%float = true /\ (x <? infinity)%float = true.

(** ** The bounds fold, one axis at a time *)

Definition axis_step (s : float * float) (x : float) : float * float :=
  (py_min (fst s) x, py_max (snd s) x).

Definition axis_seed : float * float := (infinity, neg_infinity).

Definition axis_fold (xs : list float) : float * float :=
  fold_left axis_step xs axis_seed.

Definition axis_ordered (s : float * float) : Prop := (fst s <=? snd s)%float = true.

Definition x_axis (s : fold_state) : float * float := (min_x s, max_x s).
Definition y_axis (s : fold_state) : float * float := (min_y s, max_y s).

(** The numbers [_calculate_bounds] reads off one coordinate, and off all
    coordinates of all features, in the order of its loops. *)
Definition coordinate_pair (coord : json) : result (float * float) :=
  c0 <- py_index coord 0 ;;
  x <- as_float c0 ;;
  c1 <- py_index coord 1 ;;
  y <- as_float c1 ;;
  Ok (x, y).

Definition feature_pairs (feature : json) : result (list (float * float)) :=
  coords <- get_feature_coordinates feature ;;
  rmap coordinate_pair coords.

Fixpoint coordinate_pairs (l : list json) : result (list (float * float)) :=
  match l with
  | [] => Ok []
  | feature :: l' =>
      ps <- feature_pairs feature ;;
      qs <- coordinate_pairs l' ;;
      Ok (ps ++ qs)
  end.

(** ** Shapes of the input *)


(** A feature whose geometry is a Polygon with the given ["coordinates"]. *)
Definition polygon_feature (feature rings : json) : Prop :=
  exists m g, feature = JObj m /\ assoc "geometry" m = Some (JObj g) /\
              assoc "type" g = Some (JStr "Polygon") /\
              assoc "coordinates" g = Some rings.

(** A FeatureCollection document with the given feature list. *)
Definition feature_collection (data : json) (fs : list json) : Prop :=
  exists m, data = JObj m /\ assoc "type" m = Some (JStr "FeatureCollection") /\
            assoc "features" m = Some (JArr fs).

(** Sample documents. *)
Definition make_feature (geometry_type : string) (coordinates : json) : json :=
  JObj [("type", JStr "Feature");
        ("geometry", JObj [("type", JStr geometry_type);
                           ("coordinates", coordinates)])]%string.

Definition make_collection (fs : list json) : json :=
  JObj [("type", JStr "FeatureCollection"); ("features", JArr fs)]%string.

Definition position (lon lat : float) : json := JArr [JNum lon; JNum lat].

(** A single feature whose geometry is a MultiPolygon. *)
Definition multipolygon_only : json :=
  make_feature "MultiPolygon"
    (JArr [JArr [JArr [position 0 0; position 1 0; position 1 1; position 0 0]]]).

Definition square_feature : json :=
  make_feature "Polygon"
    (JArr [JArr [position 0 0; position 1 0; position 1 1; position 0 1; position 0 0]]).

Definition no_geometry_feature : json := JObj [("type", JStr "Feature")]%string.

Definition empty_polygon : json := make_feature "Polygon" (JArr []).

Definition two_point_polygon : json :=
  make_feature "Polygon" (JArr [JArr [position 0 0; position 1 1]]).


(** A stand-in platform on which the model can be run: every [math]
    function returns its (first) argument and [Gf.Vec3f] keeps the double.
    It only instantiates statements that hold for every platform. *)
Definition identity_platform : Platform :=
  {| m_radians := fun x => x;
     m_sin := fun x => Ok x;
     m_tan := fun x => Ok x;
     m_log := fun x => Ok x;
     m_pow := fun x _ => Ok x;
     gf_float := fun x => x |}.

Definition empty_stage : stage := mkStage None ∅.

(** ** Vocabulary of the further properties *)

(** Two points stand at the same place of the X/Z plane. *)
Definition same_place (p q : Vec3 Z) : Prop := vx p = vx q /\ vz p = vz q.

(** The vertices are those of a convex polygon, listed counter-clockwise
    as seen from +Y, vertices inside an edge allowed: no three of them,
    taken in list order, turn right; no two stand at the same place; some
    three turn left, so that the polygon has an area. *)
Definition weakly_convex_ccw (vertices : list (Vec3 Z)) : Prop :=
  (forall i j k, i < j -> j < k -> k < length vertices ->
     (0 <= cross_y (nth i vertices vec_zero) (nth j vertices vec_zero)
                   (nth k vertices vec_zero))%Z) /\
  (forall i j, i < j -> j < length vertices ->
     ~ same_place (nth i vertices vec_zero) (nth j vertices vec_zero)) /\
  (exists i j k, i < j /\ j < k /\ k < length vertices /\
     left_turn (nth i vertices vec_zero) (nth j vertices vec_zero)
               (nth k vertices vec_zero)).

(** Some three of the listed vertices are not on one line. *)
Definition has_area (vertices : list (Vec3 Z)) (l : list nat) : Prop :=
  exists a b c, In a l /\ In b l /\ In c l /\
    cross_y (nth a vertices vec_zero) (nth b vertices vec_zero)
            (nth c vertices vec_zero) <> 0%Z.

(** [remaining] starts as [range(n)] and only loses elements: it stays in
    increasing order. *)
Definition increasing (l : list nat) : Prop :=
  forall a b, a < b -> b < length l -> nth a l 0 < nth b l 0.

(** [a], [b], [c] follow one another around the ring. *)
Definition cyc (a b c : nat) : Prop :=
  a < b < c \/ b < c < a \/ c < a < b.

(** Three different vertex indices. *)
Definition distinct_corners (t : nat * nat * nat) : Prop :=
  fst (fst t) <> snd (fst t) /\ snd (fst t) <> snd t /\ fst (fst t) <> snd t.

(** [x] lies between the two ends of [s]. *)
Definition axis_covers (s : float * float) (x : float) : Prop :=
  (fst s <=? x)%float = true /\ (x <=? snd s)%float = true.

Definition axis_numbers (s : float * float) : Prop :=
  is_number (fst s) /\ is_number (snd s).

(** A mesh a USD reader can use: there are faces, every face is a
    triangle, the index list holds three entries per face, every index
    names a point and there is one normal per point. *)
Definition well_formed_mesh (m : mesh_attrs) : Prop :=
  face_vertex_indices m <> [] /\
  Forall (fun c => c = 3) (face_vertex_counts m) /\
  3 * length (face_vertex_counts m) = length (face_vertex_indices m) /\
  Forall (fun i => i < length (points_attr m)) (face_vertex_indices m) /\
  length (normals_attr m) = length (points_attr m).

Definition meshes_well_formed (st : stage) : Prop :=
  forall i m, polygons st !! i = Some (Some m) -> well_formed_mesh m.

(** A stage whose root Xform carries operations already. *)
Definition stage_with_ops : stage :=
  mkStage (Some (Some (mkTransform (mkVec3 0 0 0) (mkVec3 1 1 1))%float)) ∅.

(** [feature["geometry"]["type"]]. *)
Definition geometry_type_of (feature : json) : result json :=
  g <- py_getitem feature "geometry" ;;
  py_getitem g "type".

Definition is_string (v : json) : bool :=
  match v with
  | JStr _ => true
  | _ => false
  end.

(** A stand-in for the number format, to run the window model. *)
Definition blank_display : Display := {| format_4f := fun _ => Ok "0.0000"%string |}.

(** A feature whose geometry type is the number 7. *)
Definition numbered_type_feature : json :=
  JObj [("type", JStr "Feature");
        ("geometry", JObj [("type", JNum 7); ("coordinates", JArr [])])]%string.

(** ** Doubles and their exact values *)

(** The exact value of a finite double, as a multiple of 2^-1074 (the
    smallest positive double): every finite double is such a multiple. *)
Definition dyadic (x : float) : Z :=
  match Prim2SF x with
  | S754_finite s m e => (if s then - Zpos m else Zpos m) * 2 ^ (e + 1074)
  | _ => 0
  end%Z.

(** A point of doubles, and a ring of them, on exact coordinates. *)
Definition exact_point (p : Vec3 float) : Vec3 Z :=
  mkVec3 (dyadic (vx p)) (dyadic (vy p)) (dyadic (vz p)).

Definition exact_ring (vertices : list (Vec3 float)) : list (Vec3 Z) :=
  map exact_point vertices.

Definition finite_point (p : Vec3 float) : Prop :=
  finite (vx p) /\ finite (vy p) /\ finite (vz p).

(** The three comparisons the triangulator makes on doubles -- [cross[1]
    <= 0] in [is_valid_ear], [d < 0] and [d > 0] in [_point_in_triangle]
    -- give, on the points [p], [q], [r], the answers of exact arithmetic:
    no rounding, overflow or underflow changes the sign of a determinant. *)
Definition signs_exact (p q r : Vec3 float) : Prop :=
  (cross_y p q r <=? 0)%float
  = (cross_y (exact_point p) (exact_point q) (exact_point r) <=? 0)%Z /\
  (sign p q r <? 0)%float
  = (sign (exact_point p) (exact_point q) (exact_point r) <? 0)%Z /\
  (0 <? sign p q r)%float
  = (0 <? sign (exact_point p) (exact_point q) (exact_point r))%Z.

(** The vertices are finite and the comparisons are exact on every three
    of them. *)
Definition tests_exact (vertices : list (Vec3 float)) : Prop :=
  Forall finite_point vertices /\
  forall a b c, a < length vertices -> b < length vertices -> c < length vertices ->
    signs_exact (nth a vertices vec_zero) (nth b vertices vec_zero)
                (nth c vertices vec_zero).

(** The same, as a check that can be run on a given ring. *)
Definition finiteb (x : float) : bool :=
  (neg_infinity <? x)%float && (x <? infinity)%float.

Definition signs_exactb (p q r : Vec3 float) : bool :=
  Bool.eqb (cross_y p q r <=? 0)%float
           (cross_y (exact_point p) (exact_point q) (exact_point r) <=? 0)%Z &&
  Bool.eqb (sign p q r <? 0)%float
           (sign (exact_point p) (exact_point q) (exact_point r) <? 0)%Z &&
  Bool.eqb (0 <? sign p q r)%float
           (0 <? sign (exact_point p) (exact_point q) (exact_point r))%Z.

Definition tests_exactb (vertices : list (Vec3 float)) : bool :=
  forallb (fun p => finiteb (vx p) && finiteb (vy p) && finiteb (vz p)) vertices &&
  forallb (fun p => forallb (fun q => forallb (signs_exactb p q) vertices) vertices)
          vertices.

(** A ground-plane point [(x, 0, z)] of doubles. *)
Definition fpoint (x z : float) : Vec3 float := mkVec3 x 0%float z.

(** Sample rings of doubles. *)
Definition unit_square_f : list (Vec3 float) :=
  [fpoint 0 0; fpoint 1 0; fpoint 1 (-1); fpoint 0 (-1); fpoint 0 0]%float.

Definition midpoint_triangle_f : list (Vec3 float) :=
  [fpoint 0 0; fpoint 2 0; fpoint 1 (-1); fpoint 0 (-2); fpoint 0 0]%float.

Definition clockwise_triangle_f : list (Vec3 float) :=
  [fpoint 0 0; fpoint 0 (-1); fpoint 1 (-1)]%float.

Definition collinear_three_f : list (Vec3 float) :=
  [fpoint 0 0; fpoint 1 0; fpoint 2 0]%float.

Definition collinear_four_f : list (Vec3 float) :=
  [fpoint 0 0; fpoint 1 0; fpoint 2 0; fpoint 3 0]%float.

(** Four points of the line z = -3 x, far apart in magnitude. *)
Definition collinear_far_f : list (Vec3 float) :=
  [fpoint 0x1.2p+27 (-0x1.bp+28); fpoint 0x1.2p+23 (-0x1.bp+24);
   fpoint (-0x1.8p-10) 0x1.2p-8; fpoint (-0x1.cp-27) 0x1.5p-25]%float.

(** A counter-clockwise parallelogram of area 1 with sides of length
    about 2^27.5. *)
Definition thin_parallelogram_f : list (Vec3 float) :=
  [fpoint 0 0; fpoint 134217727 134217728; fpoint 268435455 268435457;
   fpoint 134217728 134217729]%float.

(** A platform that answers as CPython does on a correctly rounded libm
    at the arguments [_geo_to_cartesian(0, 0)] reaches: [math.radians] is
    the product by pi / 180, [sin(0) = 0], [tan] of the double nearest to
    pi / 4 is 0.9999999999999999, [pow(1, y) = 1] and the logarithm of
    0.9999999999999999 is -2^-53.  Elsewhere its functions are stand-ins. *)
Definition libm_at_origin : Platform :=
  {| m_radians := fun x => (x * (math_pi / 180))%float;
     m_sin := fun x => Ok x;
     m_tan := fun x =>
       if (x =? math_pi / 4)%float then Ok 0x1.fffffffffffffp-1%float else Ok x;
     m_log := fun x =>
       if (x =? 0x1.fffffffffffffp-1)%float then Ok (-0x1p-53)%float else Ok x;
     m_pow := fun x _ => Ok x;
     gf_float := fun x => x |}.


(** Inversion of a successful [x <- m ;; k]. *)
Lemma rbind_Ok {A B} (m : result A) (k : A -> result B) (b : B) :
  rbind m k = Ok b -> exists a, m = Ok a /\ k a = Ok b.
Proof. destruct m as [a|e]; simpl; [eauto | discriminate]. Qed.

Ltac rbind_inv H :=
  let a := fresh "a" in
  let Ha := fresh "Ha" in
  apply rbind_Ok in H as (a & Ha & H).

(** * The triangulator *)

(** ** List primitives *)

Lemma py_mod_lt (a : Z) (n : nat) : 0 < n -> py_mod a n < n.
Proof.
  intros Hn. unfold py_mod.
  assert (0 <= a mod Z.of_nat n < Z.of_nat n)%Z by (apply Z.mod_pos_bound; lia).
  lia.
Qed.

Lemma py_mod_pred (m : nat) : 0 < m -> py_mod (0 - 1) m = m - 1.
Proof.
  intros Hm. unfold py_mod.
  replace (0 - 1)%Z with (Z.of_nat m - 1 + (-1) * Z.of_nat m)%Z by ring.
  rewrite Z.mod_add by lia. rewrite Z.mod_small by lia. lia.
Qed.

Lemma py_mod_one (m : nat) : 1 < m -> py_mod (0 + 1) m = 1.
Proof. intros Hm. unfold py_mod. rewrite Z.mod_small by lia. reflexivity. Qed.

Lemma prev_of_In (remaining : list nat) (i : nat) :
  remaining <> [] -> In (prev_of remaining i) remaining.
Proof.
  intros Hne. unfold prev_of. apply nth_In. apply py_mod_lt.
  destruct remaining; [congruence | simpl; lia].
Qed.

Lemma next_of_In (remaining : list nat) (i : nat) :
  remaining <> [] -> In (next_of remaining i) remaining.
Proof.
  intros Hne. unfold next_of. apply nth_In. apply py_mod_lt.
  destruct remaining; [congruence | simpl; lia].
Qed.

Lemma list_remove_length (i : nat) (l : list nat) :
  In i l -> S (length (list_remove i l)) = length l.
Proof.
  induction l as [|x l IH]; simpl; [tauto|].
  intros [->|Hin].
  - now rewrite Nat.eqb_refl.
  - destruct (Nat.eqb x i); [reflexivity|]. simpl. now rewrite IH.
Qed.

Lemma list_remove_incl (i : nat) (l : list nat) : incl (list_remove i l) l.
Proof.
  induction l as [|x l IH]; simpl; [easy|].
  destruct (Nat.eqb x i).
  - now apply incl_tl.
  - intros y [->|Hy]; [now left | right; now apply IH].
Qed.

Lemma removelast_len {A} (l : list A) : length (removelast l) = length l - 1.
Proof.
  induction l as [|x [|y l] IH]; [reflexivity..|].
  change (length (x :: removelast (y :: l)) = length (x :: y :: l) - 1).
  simpl length in *. lia.
Qed.

Lemma find_none_all {A} (f : A -> bool) (l : list A) :
  (forall x, In x l -> f x = false) -> find f l = None.
Proof.
  induction l as [|x l IH]; intros Hall; [reflexivity|]. simpl.
  rewrite (Hall x) by now left. apply IH. intros y Hy. apply Hall. now right.
Qed.

Lemma triangles_flatten (ts : list (nat * nat * nat)) : triangles (flatten ts) = ts.
Proof.
  induction ts as [|[[a b] c] ts IH]; simpl; [reflexivity|]. now rewrite IH.
Qed.

Lemma flatten_app (ts1 ts2 : list (nat * nat * nat)) :
  flatten (ts1 ++ ts2) = flatten ts1 ++ flatten ts2.
Proof. unfold flatten. apply flat_map_app. Qed.

(** ** The loop, for any coordinate arithmetic *)

Section TriangulatorFacts.
Context {R : Type} `{Scalar R}.

(** The loop invariant rule: a property of [(remaining, indices)] kept by
    every ear removal holds when the loop ends. *)
Lemma ear_loop_invariant (P : list nat -> list nat -> Prop) (vertices : list (Vec3 R)) :
  (forall remaining indices i,
      P remaining indices ->
      3 < length remaining ->
      find (is_valid_ear vertices remaining) remaining = Some i ->
      P (list_remove i remaining)
        (indices ++ [prev_of remaining i; i; next_of remaining i])) ->
  forall fuel remaining indices,
    P remaining indices ->
    P (fst (ear_loop vertices fuel remaining indices))
      (snd (ear_loop vertices fuel remaining indices)).
Proof.
  intros Hstep fuel.
  induction fuel as [|fuel IH]; intros remaining indices HP; simpl; [exact HP|].
  destruct (3 <? length remaining) eqn:Hlen; [|exact HP].
  destruct (find _ remaining) as [i|] eqn:Hfind; [|exact HP].
  apply IH, Hstep; auto. now apply Nat.ltb_lt.
Qed.

(** The fuel is never exhausted: from [fuel >= len(remaining)] on, the result
    does not depend on it. *)
Lemma ear_loop_fuel (vertices : list (Vec3 R)) (fuel : nat) :
  forall remaining indices,
    length remaining <= fuel ->
    ear_loop vertices fuel remaining indices
    = ear_loop vertices (length remaining) remaining indices.
Proof.
  induction fuel as [|fuel IH]; intros remaining indices Hle.
  - assert (length remaining = 0) as -> by lia. reflexivity.
  - destruct remaining as [|x remaining'] eqn:E; [reflexivity|].
    rewrite <- E in *.
    assert (length remaining = S (length remaining')) as Hl by (subst; reflexivity).
    rewrite Hl. simpl ear_loop.
    destruct (3 <? length remaining); [|reflexivity].
    destruct (find _ remaining) as [i|] eqn:Hfind; [|reflexivity].
    apply find_some in Hfind as [Hin _].
    pose proof (list_remove_length i remaining Hin) as Hrem.
    rewrite IH by lia.
    now replace (length remaining') with (length (list_remove i remaining)) by lia.
Qed.

(** The loop as the source writes it: the unfolding of its [while]. *)
Lemma ear_loop_unfold (vertices : list (Vec3 R)) (remaining indices : list nat) :
  ear_loop vertices (length remaining) remaining indices
  = if 3 <? length remaining then
      match find (is_valid_ear vertices remaining) remaining with
      | Some i =>
          ear_loop vertices (length (list_remove i remaining)) (list_remove i remaining)
                   (indices ++ [prev_of remaining i; i; next_of remaining i])
      | None => (remaining, indices)
      end
    else (remaining, indices).
Proof.
  destruct remaining as [|x remaining'] eqn:E.
  - reflexivity.
  - rewrite <- E.
    assert (length remaining = S (length remaining')) as Hl by (subst; reflexivity).
    rewrite Hl at 1. simpl ear_loop.
    destruct (3 <? length remaining); [|reflexivity].
    destruct (find _ remaining) as [i|] eqn:Hfind; [|reflexivity].
    apply find_some in Hfind as [Hin _].
    pose proof (list_remove_length i remaining Hin) as Hrem.
    apply ear_loop_fuel. lia.
Qed.

Lemma working_vertices_closed (points : list (Vec3 R)) p0 rest :
  points = p0 :: rest -> vec_eqb p0 (last points p0) = true ->
  working_vertices points = removelast points.
Proof. intros -> Hc. unfold working_vertices. now rewrite Hc. Qed.

Lemma working_vertices_open (points : list (Vec3 R)) p0 rest :
  points = p0 :: rest -> vec_eqb p0 (last points p0) = false ->
  working_vertices points = points.
Proof.
  intros -> Hc. unfold working_vertices. rewrite Hc. simpl negb. cbv iota.
  apply removelast_last.
Qed.

Lemma working_vertices_length (points : list (Vec3 R)) :
  length (working_vertices points) <= length points.
Proof.
  destruct points as [|p0 rest]; [reflexivity|].
  destruct (vec_eqb p0 (last (p0 :: rest) p0)) eqn:Hc.
  - erewrite working_vertices_closed by eauto. rewrite removelast_len. lia.
  - erewrite working_vertices_open by eauto. lia.
Qed.

(** With three working vertices or more, the result is that of the loop
    and the final step. *)
Lemma triangulate_polygon_run (points : list (Vec3 R)) :
  3 <= length (working_vertices points) ->
  triangulate_polygon points = final_indices (ear_clipping (working_vertices points)).
Proof.
  intros H3. pose proof (working_vertices_length points) as Hle.
  unfold triangulate_polygon.
  destruct (length points <? 3) eqn:E1; [apply Nat.ltb_lt in E1; lia|].
  destruct (length (working_vertices points) <? 3) eqn:E2;
    [apply Nat.ltb_lt in E2; lia | reflexivity].
Qed.

(** What one round of the loop adds to [indices] comes from [remaining]. *)
Lemma ear_step_indices (vertices : list (Vec3 R)) remaining i :
  3 < length remaining ->
  find (is_valid_ear vertices remaining) remaining = Some i ->
  In (prev_of remaining i) remaining /\ In i remaining /\ In (next_of remaining i) remaining.
Proof.
  intros Hlen Hfind. apply find_some in Hfind as [Hin _].
  assert (remaining <> []) by (destruct remaining; [simpl in Hlen; lia | congruence]).
  auto using prev_of_In, next_of_In.
Qed.

Lemma ear_loop_in_range (vertices : list (Vec3 R)) (n fuel : nat) remaining indices :
  Forall (fun i => i < n) remaining ->
  Forall (fun i => i < n) indices ->
  Forall (fun i => i < n) (fst (ear_loop vertices fuel remaining indices)) /\
  Forall (fun i => i < n) (snd (ear_loop vertices fuel remaining indices)).
Proof.
  intros Hr Hi.
  apply (ear_loop_invariant
           (fun r ix => Forall (fun i => i < n) r /\ Forall (fun i => i < n) ix));
    [|now split].
  clear. intros remaining indices i [Hr Hi] Hlen Hfind.
  destruct (ear_step_indices _ _ _ Hlen Hfind) as (Hp & Hin & Hn).
  rewrite Forall_forall in Hr. split.
  - apply Forall_forall. intros x Hx. now apply Hr, (list_remove_incl i).
  - apply Forall_app. split; [assumption|].
    repeat constructor; now apply Hr.
Qed.

Lemma ear_loop_whole_triangles (vertices : list (Vec3 R)) (fuel : nat) remaining indices :
  (exists k, length indices = 3 * k) ->
  exists k, length (snd (ear_loop vertices fuel remaining indices)) = 3 * k.
Proof.
  intros Hk.
  apply (ear_loop_invariant (fun _ ix => exists k, length ix = 3 * k)); [|assumption].
  clear. intros remaining indices i [k Hk] _ _. exists (S k).
  rewrite length_app. simpl. lia.
Qed.

(** C4.  Whatever the ring, the index list the triangulator returns has a
    length that is a multiple of 3, and each of its values is below the
    number of points of the ring as it was passed in. *)
Theorem triangle_indices_in_range (points : list (Vec3 R)) :
  (exists k, length (triangulate_polygon points) = 3 * k) /\
  Forall (fun i => i < length points) (triangulate_polygon points).
Proof.
  unfold triangulate_polygon.
  destruct (length points <? 3); [split; [now exists 0 | constructor]|].
  destruct (length (working_vertices points) <? 3); [split; [now exists 0 | constructor]|].
  pose proof (working_vertices_length points) as Hlen.
  set (vertices := working_vertices points) in *.
  set (n := length vertices) in *.
  assert (Forall (fun i => i < n) (seq 0 n)) as Hseq
      by (apply Forall_forall; intros x Hx; apply in_seq in Hx; lia).
  destruct (ear_loop_in_range vertices n n (seq 0 n) [] Hseq (Forall_nil _)) as [Hr Hi].
  destruct (ear_loop_whole_triangles vertices n (seq 0 n) []) as [k Hk]; [now exists 0|].
  unfold ear_clipping. fold n.
  destruct (ear_loop vertices n (seq 0 n) []) as [remaining indices].
  simpl fst in *; simpl snd in *. unfold final_indices.
  assert (forall l, Forall (fun i => i < n) l -> Forall (fun i => i < length points) l)
    as Hmono.
  { intros l Hl. eapply Forall_impl; [|exact Hl]. simpl. intros; lia. }
  destruct (length remaining =? 3) eqn:H3.
  - apply Nat.eqb_eq in H3. split.
    + exists (S k). rewrite length_app. lia.
    + apply Forall_app. split; auto.
  - split; [now exists k | auto].
Qed.

(** C6.  A ring whose first and last points are equal loses its last point
    before triangulation, which runs on the working vertices; when fewer
    than 3 working vertices are left, or the ring has fewer than 3 points
    to begin with, the result is the empty list. *)
Theorem ring_normalization (points : list (Vec3 R)) :
  (forall p0 rest, points = p0 :: rest -> vec_eqb p0 (last points p0) = true ->
     working_vertices points = removelast points) /\
  (3 <= length (working_vertices points) ->
     triangulate_polygon points = final_indices (ear_clipping (working_vertices points))) /\
  (length (working_vertices points) < 3 -> triangulate_polygon points = []) /\
  (length points < 3 -> triangulate_polygon points = []).
Proof.
  repeat split.
  - intros p0 rest. apply working_vertices_closed.
  - apply triangulate_polygon_run.
  - intros H3. unfold triangulate_polygon.
    apply Nat.ltb_lt in H3. rewrite H3. now destruct (length points <? 3).
  - intros H3. unfold triangulate_polygon. apply Nat.ltb_lt in H3. now rewrite H3.
Qed.

(** A vertex the loop removed had passed the orientation test. *)
Lemma is_valid_ear_cross (vertices : list (Vec3 R)) remaining i :
  is_valid_ear vertices remaining i = true ->
  ear_test vertices (prev_of remaining i, i, next_of remaining i).
Proof.
  unfold is_valid_ear, ear_test. simpl.
  destruct (length remaining <? 3); [discriminate|].
  now destruct (s_leb _ s_zero).
Qed.

Lemma ear_loop_ears (vertices : list (Vec3 R)) (fuel : nat) remaining :
  exists ears,
    snd (ear_loop vertices fuel remaining []) = flatten ears /\
    Forall (ear_test vertices) ears.
Proof.
  apply (ear_loop_invariant
           (fun _ ix => exists ears, ix = flatten ears /\ Forall (ear_test vertices) ears)).
  - clear. intros remaining indices i (ears & -> & Hall) _ Hfind.
    apply find_some in Hfind as [_ Hear].
    exists (ears ++ [(prev_of remaining i, i, next_of remaining i)]). split.
    + now rewrite flatten_app.
    + apply Forall_app. split; [assumption|].
      constructor; [|constructor]. now apply is_valid_ear_cross.
  - exists []. split; [reflexivity | constructor].
Qed.

(** When no triple of vertices passes the orientation test, no vertex is
    an ear and the loop stops at once. *)
Lemma no_left_turn_no_ear (vertices : list (Vec3 R)) remaining i :
  (forall a b c, a < length vertices -> b < length vertices -> c < length vertices ->
     s_leb (cross_y (nth a vertices vec_zero) (nth b vertices vec_zero)
                    (nth c vertices vec_zero)) s_zero = true) ->
  Forall (fun j => j < length vertices) remaining ->
  In i remaining ->
  is_valid_ear vertices remaining i = false.
Proof.
  intros Hflat Hr Hin. unfold is_valid_ear.
  destruct (length remaining <? 3); [reflexivity|].
  assert (remaining <> []) as Hne by (destruct remaining; [contradiction | congruence]).
  rewrite Forall_forall in Hr.
  rewrite Hflat; auto using prev_of_In, next_of_In.
Qed.

Lemma no_left_turn_no_triangle (vertices : list (Vec3 R)) :
  (forall a b c, a < length vertices -> b < length vertices -> c < length vertices ->
     s_leb (cross_y (nth a vertices vec_zero) (nth b vertices vec_zero)
                    (nth c vertices vec_zero)) s_zero = true) ->
  4 <= length vertices ->
  ear_clipping vertices = (seq 0 (length vertices), []).
Proof.
  intros Hflat H4. unfold ear_clipping.
  pose proof (ear_loop_unfold vertices (seq 0 (length vertices)) []) as Hloop.
  rewrite length_seq in Hloop. rewrite Hloop. clear Hloop.
  destruct (3 <? length vertices) eqn:E; [|reflexivity].
  rewrite find_none_all; [reflexivity|].
  intros i Hi. apply no_left_turn_no_ear; auto.
  apply Forall_forall. intros x Hx. apply in_seq in Hx. lia.
Qed.

(** Three working vertices: the loop does not run and the final triangle
    is emitted as it stands. *)
Lemma three_vertices (points : list (Vec3 R)) :
  length (working_vertices points) = 3 -> triangulate_polygon points = [0; 1; 2].
Proof.
  intros H3. rewrite triangulate_polygon_run by lia.
  unfold ear_clipping. now rewrite H3.
Qed.

End TriangulatorFacts.

(** ** Geometry on exact coordinates *)

Lemma ear_test_Z (vertices : list (Vec3 Z)) (t : nat * nat * nat) :
  ear_test vertices t <-> positive_area vertices t.
Proof.
  unfold ear_test, positive_area, left_turn, cross_y. simpl.
  rewrite Z.leb_gt. reflexivity.
Qed.

Lemma left_turn_cross_y (p q r : Vec3 Z) : left_turn p q r <-> (0 < cross_y p q r)%Z.
Proof. reflexivity. Qed.

Lemma cross_y_rotate (p q r : Vec3 Z) : cross_y p q r = cross_y q r p.
Proof. unfold cross_y. simpl. ring. Qed.

Lemma cross_y_swap (p q r : Vec3 Z) : cross_y p q r = (- cross_y q p r)%Z.
Proof. unfold cross_y. simpl. ring. Qed.

Lemma sign_cross_y (p a b : Vec3 Z) : sign p a b = (- cross_y p a b)%Z.
Proof. unfold sign, cross_y. simpl. ring. Qed.

Lemma collinear_cross_zero (vertices : list (Vec3 Z)) p q r :
  collinear vertices -> In p vertices -> In q vertices -> In r vertices ->
  cross_y p q r = 0%Z.
Proof.
  intros (a & b & c & Hab & Hline) Hp Hq Hr.
  rewrite Forall_forall in Hline.
  pose proof (Hline p Hp) as Ep. pose proof (Hline q Hq) as Eq. pose proof (Hline r Hr) as Er.
  unfold cross_y. simpl.
  set (E := (_ - _)%Z).
  assert (a * E = 0)%Z as Ha.
  { replace (a * E)%Z
      with ((vz q - vz p) * ((a * vx r + b * vz r) - (a * vx q + b * vz q))
            - ((a * vx q + b * vz q) - (a * vx p + b * vz p)) * (vz r - vz q))%Z
      by (subst E; ring).
    rewrite Ep, Eq, Er. ring. }
  assert (b * E = 0)%Z as Hb.
  { replace (b * E)%Z
      with (((a * vx q + b * vz q) - (a * vx p + b * vz p) - a * (vx q - vx p))
              * (vx r - vx q)
            - ((a * vx r + b * vz r) - (a * vx q + b * vz q) - a * (vx r - vx q))
              * (vx q - vx p))%Z
      by (subst E; ring).
    rewrite Ep, Eq, Er. ring. }
  apply Z.mul_eq_0 in Ha, Hb. destruct Hab; tauto.
Qed.

(** *** Convex rings *)

Lemma list_index_head (k m : nat) : list_index k (seq k (S m)) = 0.
Proof. simpl. now rewrite Nat.eqb_refl. Qed.

Lemma prev_of_head (k m : nat) : prev_of (seq k (S m)) k = k + m.
Proof.
  unfold prev_of. rewrite list_index_head, length_seq.
  change (Z.of_nat 0) with 0%Z. rewrite py_mod_pred by lia.
  rewrite seq_nth by lia. lia.
Qed.

Lemma next_of_head (k m : nat) : 0 < m -> next_of (seq k (S m)) k = S k.
Proof.
  intros Hm. unfold next_of. rewrite list_index_head, length_seq.
  change (Z.of_nat 0) with 0%Z. rewrite py_mod_one by lia.
  rewrite seq_nth by lia. lia.
Qed.

Lemma list_remove_head (k m : nat) : list_remove k (seq k (S m)) = seq (S k) m.
Proof. simpl. now rewrite Nat.eqb_refl. Qed.

Section Convex.
Variable vertices : list (Vec3 Z).
Hypothesis Hconvex : convex_ccw vertices.

Local Abbreviation v i := (nth i vertices vec_zero).

Lemma convex_cross (i j k : nat) :
  i < j -> j < k -> k < length vertices -> (0 < cross_y (v i) (v j) (v k))%Z.
Proof. intros. now apply left_turn_cross_y, Hconvex. Qed.

(** A vertex strictly between [k + 1] and a later vertex [n] lies outside
    the triangle cut at [k]. *)
Lemma convex_outside (k j n : nat) :
  S k < j -> j < n -> n < length vertices ->
  point_in_triangle (v j) (v n) (v k) (v (S k)) = false.
Proof.
  intros Hkj Hjn Hn. unfold point_in_triangle.
  rewrite !sign_cross_y.
  pose proof (convex_cross k j n ltac:(lia) ltac:(lia) ltac:(lia)) as H1.
  pose proof (convex_cross (S k) j n ltac:(lia) ltac:(lia) ltac:(lia)) as H3.
  rewrite cross_y_rotate in H1.
  rewrite cross_y_swap in H3.
  assert (s_ltb (- cross_y (v j) (v n) (v k))%Z s_zero = true) as ->
      by (apply Z.ltb_lt; change (@s_zero Z Scalar_Z) with 0%Z; lia).
  assert (s_ltb s_zero (- cross_y (v j) (v (S k)) (v n))%Z = true) as ->
      by (apply Z.ltb_lt; change (@s_zero Z Scalar_Z) with 0%Z; lia).
  simpl. now rewrite !orb_true_r.
Qed.

(** The first remaining vertex is always an ear. *)
Lemma convex_head_ear (k m : nat) :
  k + m = length vertices -> 3 <= m ->
  is_valid_ear vertices (seq k m) k = true.
Proof.
  intros Hn Hm. destruct m as [|m]; [lia|].
  unfold is_valid_ear. rewrite length_seq.
  replace (S m <? 3) with false by (symmetry; apply Nat.ltb_ge; lia).
  rewrite prev_of_head, next_of_head by lia.
  pose proof (convex_cross k (S k) (k + m) ltac:(lia) ltac:(lia) ltac:(lia)) as Hc.
  rewrite cross_y_rotate, cross_y_rotate in Hc.
  replace (s_leb (cross_y (v (k + m)) (v k) (v (S k))) s_zero) with false
    by (symmetry; apply Z.leb_gt; exact Hc).
  apply forallb_forall. intros j Hj. apply in_seq in Hj.
  destruct (Nat.eqb j (k + m)) eqn:E1; [reflexivity|].
  destruct (Nat.eqb j k) eqn:E2; [reflexivity|].
  destruct (Nat.eqb j (S k)) eqn:E3; [reflexivity|].
  apply Nat.eqb_neq in E1, E2, E3. simpl.
  rewrite convex_outside by lia. reflexivity.
Qed.

Lemma convex_find (k m : nat) :
  k + m = length vertices -> 3 <= m ->
  find (is_valid_ear vertices (seq k m)) (seq k m) = Some k.
Proof.
  intros Hn Hm. pose proof (convex_head_ear k m Hn Hm) as Hear.
  destruct m as [|m]; [lia|].
  revert Hear. generalize (is_valid_ear vertices (seq k (S m))). intros f Hf.
  simpl. now rewrite Hf.
Qed.

(** The loop cuts the vertices off in order: a fan around the last one. *)
Lemma convex_fan (d : nat) :
  forall k indices,
    k + (d + 3) = length vertices ->
    ear_loop vertices (d + 3) (seq k (d + 3)) indices
    = (seq (k + d) 3,
       indices ++ flat_map (fun j => [length vertices - 1; j; S j]) (seq k d)).
Proof.
  induction d as [|d IH]; intros k indices Hn.
  - simpl. now rewrite Nat.add_0_r, app_nil_r.
  - pose proof (ear_loop_unfold vertices (seq k (S d + 3)) indices) as Hloop.
    rewrite length_seq in Hloop. rewrite Hloop. clear Hloop.
    replace (3 <? S d + 3) with true by (symmetry; apply Nat.ltb_lt; lia).
    change (S d + 3) with (S (d + 3)).
    rewrite convex_find by lia.
    rewrite prev_of_head, next_of_head, list_remove_head, length_seq by lia.
    rewrite IH by lia.
    f_equal; [f_equal; lia|].
    rewrite <- app_assoc. f_equal. simpl.
    repeat f_equal. lia.
Qed.

Lemma convex_ear_clipping :
  3 <= length vertices ->
  ear_clipping vertices
  = (seq (length vertices - 3) 3,
     flat_map (fun j => [length vertices - 1; j; S j]) (seq 0 (length vertices - 3))).
Proof.
  intros H3. unfold ear_clipping.
  replace (length vertices) with ((length vertices - 3) + 3) at 1 2 by lia.
  rewrite convex_fan by lia. reflexivity.
Qed.

End Convex.

(** * Geographic bounds *)

(** ** Comparison of doubles *)

Lemma SFcompare_nan (a b : spec_float) :
  SFcompare a b <> None <-> sf_not_nan a /\ sf_not_nan b.
Proof.
  unfold sf_not_nan. destruct a, b; simpl; intuition congruence.
Qed.

Lemma SFcompare_Lt (a b : spec_float) :
  SFcompare a b = Some Lt <->
  sf_not_nan a /\ sf_not_nan b /\ key_lt (sf_key a) (sf_key b).
Proof.
  unfold sf_not_nan.
  destruct a as [[]|[]| |[] m1 e1], b as [[]|[]| |[] m2 e2]; simpl;
    try (split; [intros; try discriminate; repeat split; try congruence; lia
                | intros (? & ? & ?); try congruence; try reflexivity; lia]).
  - destruct (Z.compare_spec e1 e2) as [->| |].
    + change (Pos.compare_cont Eq m1 m2) with (Pos.compare m1 m2).
      destruct (Pos.compare_spec m1 m2); simpl;
        (split; [intros; try discriminate; repeat split; try congruence; lia
                | intros (? & ? & ?); try reflexivity; lia]).
    + split; [intros; discriminate | intros (? & ? & ?); lia].
    + split; [intros; repeat split; try congruence; lia | reflexivity].
  - destruct (Z.compare_spec e1 e2) as [->| |].
    + change (Pos.compare_cont Eq m1 m2) with (Pos.compare m1 m2).
      destruct (Pos.compare_spec m1 m2); simpl;
        (split; [intros; try discriminate; repeat split; try congruence; lia
                | intros (? & ? & ?); try reflexivity; lia]).
    + split; [intros; repeat split; try congruence; lia | reflexivity].
    + split; [intros; discriminate | intros (? & ? & ?); lia].
Qed.

Lemma SFcompare_Gt (a b : spec_float) :
  SFcompare a b = Some Gt <->
  sf_not_nan a /\ sf_not_nan b /\ key_lt (sf_key b) (sf_key a).
Proof.
  unfold sf_not_nan.
  destruct a as [[]|[]| |[] m1 e1], b as [[]|[]| |[] m2 e2]; simpl;
    try (split; [intros; try discriminate; repeat split; try congruence; lia
                | intros (? & ? & ?); try congruence; try reflexivity; lia]).
  - destruct (Z.compare_spec e1 e2) as [->| |].
    + change (Pos.compare_cont Eq m1 m2) with (Pos.compare m1 m2).
      destruct (Pos.compare_spec m1 m2); simpl;
        (split; [intros; try discriminate; repeat split; try congruence; lia
                | intros (? & ? & ?); try reflexivity; lia]).
    + split; [intros; repeat split; try congruence; lia | reflexivity].
    + split; [intros; discriminate | intros (? & ? & ?); lia].
  - destruct (Z.compare_spec e1 e2) as [->| |].
    + change (Pos.compare_cont Eq m1 m2) with (Pos.compare m1 m2).
      destruct (Pos.compare_spec m1 m2); simpl;
        (split; [intros; try discriminate; repeat split; try congruence; lia
                | intros (? & ? & ?); try reflexivity; lia]).
    + split; [intros; discriminate | intros (? & ? & ?); lia].
    + split; [intros; repeat split; try congruence; lia | reflexivity].
Qed.

Lemma is_number_spec (x : float) : is_number x <-> sf_not_nan (Prim2SF x).
Proof.
  unfold is_number. rewrite eqb_spec. unfold SFeqb, sf_not_nan.
  destruct (SFcompare (Prim2SF x) (Prim2SF x)) as [[]|] eqn:E.
  - split; [|reflexivity]. intros _ Hn. rewrite Hn in E. discriminate.
  - apply SFcompare_Lt in E as (_ & _ & Hk).
    destruct (sf_key (Prim2SF x)) as [[c e] m]. simpl in Hk. lia.
  - apply SFcompare_Gt in E as (_ & _ & Hk).
    destruct (sf_key (Prim2SF x)) as [[c e] m]. simpl in Hk. lia.
  - split; [discriminate|]. intros Hn. exfalso.
    apply (proj2 (SFcompare_nan _ _)) in E; [assumption | now split].
Qed.

Lemma is_number_dec (x : float) : is_number x \/ ~ is_number x.
Proof. unfold is_number. destruct (x =? x)%float; [now left | right; discriminate]. Qed.

(** [x < y] and [x <= y] on doubles, read on the keys. *)
Lemma ltb_key (x y : float) :
  (x <? y)%float = true <->
  is_number x /\ is_number y /\ key_lt (sf_key (Prim2SF x)) (sf_key (Prim2SF y)).
Proof.
  rewrite ltb_spec, !is_number_spec. unfold SFltb.
  rewrite <- SFcompare_Lt.
  destruct (SFcompare (Prim2SF x) (Prim2SF y)) as [[]|]; split; congruence.
Qed.

Lemma leb_key (x y : float) :
  (x <=? y)%float = true <->
  is_number x /\ is_number y /\ ~ key_lt (sf_key (Prim2SF y)) (sf_key (Prim2SF x)).
Proof.
  rewrite leb_spec, !is_number_spec. unfold SFleb.
  destruct (SFcompare (Prim2SF x) (Prim2SF y)) as [[]|] eqn:E.
  - split; [intros _|reflexivity].
    assert (SFcompare (Prim2SF x) (Prim2SF y) <> None) as Hn by congruence.
    apply SFcompare_nan in Hn as [Hx Hy]. repeat split; auto.
    intros Hk. assert (SFcompare (Prim2SF x) (Prim2SF y) = Some Gt) as E'
        by (apply SFcompare_Gt; auto). congruence.
  - split; [intros _|reflexivity].
    apply SFcompare_Lt in E as (Hx & Hy & Hk). repeat split; auto.
    destruct (sf_key (Prim2SF x)) as [[c1 e1] m1], (sf_key (Prim2SF y)) as [[c2 e2] m2].
    simpl in *. lia.
  - split; [discriminate|]. intros (_ & _ & Hk). exfalso. apply Hk.
    now apply SFcompare_Gt in E as (_ & _ & ?).
  - split; [discriminate|]. intros (Hx & Hy & _). exfalso.
    apply (proj2 (SFcompare_nan _ _)) in E; [assumption | now split].
Qed.

Lemma leb_refl_number (x : float) : is_number x -> (x <=? x)%float = true.
Proof.
  intros Hx. apply leb_key. repeat split; auto.
  destruct (sf_key (Prim2SF x)) as [[c e] m]. simpl. lia.
Qed.

Lemma ltb_false_nan (x y : float) :
  ~ is_number x -> (x <? y)%float = false /\ (y <? x)%float = false.
Proof.
  intros Hx. split.
  - destruct (x <? y)%float eqn:E; [|reflexivity]. apply ltb_key in E. tauto.
  - destruct (y <? x)%float eqn:E; [|reflexivity]. apply ltb_key in E. tauto.
Qed.

Lemma ltb_false_key (x y : float) :
  is_number x -> is_number y -> (x <? y)%float = false ->
  ~ key_lt (sf_key (Prim2SF x)) (sf_key (Prim2SF y)).
Proof.
  intros Hx Hy E Hk.
  assert ((x <? y)%float = true) by (apply ltb_key; auto). congruence.
Qed.

(** A finite double minus itself is zero. *)
Lemma finite_sub_self (x : float) : finite x -> (x - x =? 0)%float = true.
Proof.
  intros [Hlo Hhi].
  apply ltb_key in Hlo as (_ & Hnum & Hlo). apply ltb_key in Hhi as (_ & _ & Hhi).
  apply is_number_spec in Hnum. unfold sf_not_nan in Hnum.
  change (sf_key (Prim2SF neg_infinity)) with (-2, 0, 0)%Z in Hlo.
  change (sf_key (Prim2SF infinity)) with (2, 0, 0)%Z in Hhi.
  rewrite eqb_spec, sub_spec.
  destruct (Prim2SF x) as [[]|[]| |s m e]; simpl in Hlo, Hhi;
    try lia; try reflexivity; try congruence.
  cbv beta iota zeta delta [SF64sub SFsub]. rewrite Z.sub_diag. reflexivity.
Qed.

(** ** The running minimum and maximum *)

Lemma axis_step_ordered (s : float * float) (x : float) :
  axis_ordered s -> axis_ordered (axis_step s x).
Proof.
  destruct s as [mn mx]. unfold axis_ordered, axis_step, py_min, py_max. simpl.
  intros Hs. apply leb_key in Hs as (Hmn & Hmx & Hk).
  destruct (x <? mn)%float eqn:E1, (mx <? x)%float eqn:E2; apply leb_key.
  - apply ltb_key in E1 as (Hx & _ & _). repeat split; auto.
    destruct (sf_key (Prim2SF x)) as [[c e] m]. simpl. lia.
  - apply ltb_key in E1 as (Hx & _ & Hk1). repeat split; auto.
    destruct (sf_key (Prim2SF x)) as [[c e] m], (sf_key (Prim2SF mn)) as [[c1 e1] m1],
             (sf_key (Prim2SF mx)) as [[c2 e2] m2]. simpl in *. lia.
  - apply ltb_key in E2 as (_ & Hx & Hk2). repeat split; auto.
    destruct (sf_key (Prim2SF x)) as [[c e] m], (sf_key (Prim2SF mn)) as [[c1 e1] m1],
             (sf_key (Prim2SF mx)) as [[c2 e2] m2]. simpl in *. lia.
  - repeat split; auto.
Qed.

Lemma axis_step_seed_number (x : float) :
  is_number x -> axis_ordered (axis_step axis_seed x).
Proof.
  intros Hx. unfold axis_ordered, axis_step, axis_seed, py_min, py_max. simpl.
  assert (is_number infinity) as Hi by reflexivity.
  assert (is_number neg_infinity) as Hn by reflexivity.
  destruct (x <? infinity)%float eqn:E1, (neg_infinity <? x)%float eqn:E2.
  - now apply leb_refl_number.
  - apply leb_key. repeat split; auto. now apply ltb_false_key.
  - apply leb_key. repeat split; auto. now apply ltb_false_key.
  - exfalso.
    apply ltb_false_key in E1, E2; auto.
    change (sf_key (Prim2SF neg_infinity)) with (-2, 0, 0)%Z in *.
    change (sf_key (Prim2SF infinity)) with (2, 0, 0)%Z in *.
    destruct (sf_key (Prim2SF x)) as [[c e] m]. simpl in *. lia.
Qed.

Lemma axis_step_nan (s : float * float) (x : float) :
  ~ is_number x -> axis_step s x = s.
Proof.
  intros Hx. destruct s as [mn mx]. unfold axis_step, py_min, py_max. simpl.
  destruct (ltb_false_nan x mn Hx) as [-> _].
  destruct (ltb_false_nan x mx Hx) as [_ ->]. reflexivity.
Qed.

Lemma axis_fold_ordered_from (xs : list float) (s : float * float) :
  axis_ordered s -> axis_ordered (fold_left axis_step xs s).
Proof.
  revert s. induction xs as [|x xs IH]; intros s Hs; [exact Hs|].
  simpl. apply IH. now apply axis_step_ordered.
Qed.

(** One number is enough to order the bounds; without any, the seeds stay. *)
Lemma axis_fold_number (xs : list float) :
  (exists x, In x xs /\ is_number x) -> axis_ordered (axis_fold xs).
Proof.
  unfold axis_fold. intros (x & Hin & Hx).
  induction xs as [|y xs IH]; [contradiction|]. simpl.
  destruct (is_number_dec y) as [Hy|Hy].
  - now apply axis_fold_ordered_from, axis_step_seed_number.
  - rewrite axis_step_nan by assumption. apply IH.
    destruct Hin as [->|Hin]; [contradiction | assumption].
Qed.

Lemma axis_fold_nan (xs : list float) :
  (forall x, In x xs -> ~ is_number x) -> axis_fold xs = axis_seed.
Proof.
  unfold axis_fold. induction xs as [|y xs IH]; intros Hall; [reflexivity|]. simpl.
  rewrite axis_step_nan by (apply Hall; now left).
  apply IH. intros x Hx. apply Hall. now right.
Qed.

(** ** [_calculate_bounds] folds the extracted numbers *)

Lemma bounds_coord_axes (s s' : fold_state) (coord : json) :
  bounds_coord s coord = Ok s' ->
  exists p, coordinate_pair coord = Ok p /\
            x_axis s' = axis_step (x_axis s) (fst p) /\
            y_axis s' = axis_step (y_axis s) (snd p).
Proof.
  unfold bounds_coord, coordinate_pair. intros Hs.
  rbind_inv Hs. rbind_inv Hs. rbind_inv Hs. rbind_inv Hs.
  injection Hs as <-.
  rewrite Ha; simpl; rewrite Ha0; simpl; rewrite Ha1; simpl; rewrite Ha2; simpl.
  eexists. split; [reflexivity|]. split; reflexivity.
Qed.

Lemma bounds_coords_axes (coords : list json) :
  forall s s',
    rfold bounds_coord s coords = Ok s' ->
    exists ps, rmap coordinate_pair coords = Ok ps /\
               x_axis s' = fold_left axis_step (map fst ps) (x_axis s) /\
               y_axis s' = fold_left axis_step (map snd ps) (y_axis s).
Proof.
  induction coords as [|coord coords IH]; intros s s' Hs; simpl in Hs.
  - injection Hs as <-. exists []. repeat split; reflexivity.
  - rbind_inv Hs.
    apply bounds_coord_axes in Ha as (p & Hp & Hx & Hy).
    apply IH in Hs as (ps & Hps & Hxs & Hys).
    exists (p :: ps). simpl. rewrite Hp, Hps. simpl.
    rewrite Hxs, Hys, Hx, Hy. repeat split; reflexivity.
Qed.

Lemma bounds_features_axes (l : list json) :
  forall s s',
    rfold bounds_feature s l = Ok s' ->
    exists ps, coordinate_pairs l = Ok ps /\
               x_axis s' = fold_left axis_step (map fst ps) (x_axis s) /\
               y_axis s' = fold_left axis_step (map snd ps) (y_axis s).
Proof.
  induction l as [|feature l IH]; intros s s' Hs; simpl in Hs.
  - injection Hs as <-. exists []. repeat split; reflexivity.
  - rbind_inv Hs. unfold bounds_feature in Ha. rbind_inv Ha.
    apply bounds_coords_axes in Ha as (ps & Hps & Hx & Hy).
    apply IH in Hs as (qs & Hqs & Hxs & Hys).
    exists (ps ++ qs). simpl. unfold feature_pairs. rewrite Ha0. simpl.
    rewrite Hps, Hqs. simpl.
    rewrite !map_app, !fold_left_app, <- Hx, <- Hy. auto.
Qed.

Lemma calculate_bounds_axes (fs : json) (b : GeoBounds) :
  calculate_bounds fs = Ok (Some b) ->
  exists l ps, py_iter fs = Ok l /\ coordinate_pairs l = Ok ps /\
    (fst (b_min b), fst (b_max b)) = axis_fold (map fst ps) /\
    (snd (b_min b), snd (b_max b)) = axis_fold (map snd ps).
Proof.
  unfold calculate_bounds. destruct (negb (py_truthy fs)); [discriminate|].
  intros Hb. rbind_inv Hb. rbind_inv Hb. injection Hb as <-.
  apply bounds_features_axes in Ha0 as (ps & Hps & Hx & Hy).
  exists a, ps. repeat split; auto.
Qed.

(** After a successful load the bounds are those of the stored features. *)
Lemma load_from_file_bounds (self : GeoJSONData) (file : result json) :
  snd (load_from_file self file) = true ->
  calculate_bounds (features (fst (load_from_file self file)))
  = Ok (bounds (fst (load_from_file self file))).
Proof.
  unfold load_from_file. destruct file as [data|e]; [|discriminate].
  unfold load_data.
  destruct (rbind (py_get data "type" (JStr "unknown")) _) as [fs|e]; [|discriminate].
  destruct (rbind (py_len fs) _) as [b|e] eqn:Hb; [|discriminate].
  intros _. simpl. rbind_inv Hb. exact Hb.
Qed.

(** C1 (amended).  After a successful load that leaves bounds, on each axis:
    min <= max as soon as one extracted coordinate is a number (not NaN)
    on that axis; and when none is -- in particular when the features
    contribute no coordinate at all -- the bounds of that axis are still
    the seeds, min = +inf and max = -inf. *)
Theorem bounds_ordered_by_numbers (self : GeoJSONData) (file : result json) (b : GeoBounds) :
  snd (load_from_file self file) = true ->
  bounds (fst (load_from_file self file)) = Some b ->
  exists l ps,
    py_iter (features (fst (load_from_file self file))) = Ok l /\
    coordinate_pairs l = Ok ps /\
    ((exists p, In p ps /\ is_number (fst p)) ->
       (fst (b_min b) <=? fst (b_max b))%float = true) /\
    ((exists p, In p ps /\ is_number (snd p)) ->
       (snd (b_min b) <=? snd (b_max b))%float = true) /\
    ((forall p, In p ps -> ~ is_number (fst p)) ->
       fst (b_min b) = infinity /\ fst (b_max b) = neg_infinity) /\
    ((forall p, In p ps -> ~ is_number (snd p)) ->
       snd (b_min b) = infinity /\ snd (b_max b) = neg_infinity).
Proof.
  intros Hok Hb. pose proof (load_from_file_bounds self file Hok) as Hc.
  rewrite Hb in Hc. apply calculate_bounds_axes in Hc as (l & ps & Hl & Hps & Hx & Hy).
  exists l, ps. split; [assumption|]. split; [assumption|].
  repeat split.
  - intros (p & Hin & Hp).
    change (axis_ordered (fst (b_min b), fst (b_max b))). rewrite Hx.
    apply axis_fold_number. exists (fst p). split; [now apply in_map | assumption].
  - intros (p & Hin & Hp).
    change (axis_ordered (snd (b_min b), snd (b_max b))). rewrite Hy.
    apply axis_fold_number. exists (snd p). split; [now apply in_map | assumption].
  - rewrite axis_fold_nan in Hx; [now injection Hx|].
    intros x Hin. apply in_map_iff in Hin as (p & <- & Hp). auto.
  - rewrite axis_fold_nan in Hx; [now injection Hx|].
    intros x Hin. apply in_map_iff in Hin as (p & <- & Hp). auto.
  - rewrite axis_fold_nan in Hy; [now injection Hy|].
    intros x Hin. apply in_map_iff in Hin as (p & <- & Hp). auto.
  - rewrite axis_fold_nan in Hy; [now injection Hy|].
    intros x Hin. apply in_map_iff in Hin as (p & <- & Hp). auto.
Qed.

Lemma bounds_ordered_by_numbers_witness :
  (fst (b_min (mkBounds (0, 0) (1, 1))%float)
   <=? fst (b_max (mkBounds (0, 0) (1, 1))%float))%float = true.
Proof.
  destruct (bounds_ordered_by_numbers init_data (Ok square_feature)
              (mkBounds (0, 0) (1, 1))%float eq_refl eq_refl)
    as (l & ps & Hl & Hps & Hx & _).
  apply Hx. simpl in Hl. injection Hl as <-.
  vm_compute in Hps. injection Hps as <-.
  exists (0, 0)%float. split; [now left | reflexivity].
Defined.

(** C1, as stated, fails: a document whose only feature is a MultiPolygon
    loads successfully, its bounds are present, and they are the seeds
    (+inf, +inf) / (-inf, -inf), for which min <= max is false. *)
Lemma multipolygon_bounds_unordered :
  load_from_file init_data (Ok multipolygon_only)
  = (mkData (JArr [multipolygon_only])
            (Some (mkBounds (infinity, infinity) (neg_infinity, neg_infinity))), true) /\
  (infinity <=? neg_infinity)%float = false.
Proof. split; reflexivity. Qed.

(** * Loading and emission on malformed or degenerate features *)




(** Loading a FeatureCollection stores its features and succeeds exactly
    when the bounds computation does. *)
Lemma load_collection (self : GeoJSONData) (data : json) (fs : list json) :
  feature_collection data fs ->
  load_from_file self (Ok data)
  = match calculate_bounds (JArr fs) with
    | Ok b => (mkData (JArr fs) b, true)
    | Raise _ => (mkData (JArr fs) (bounds self), false)
    end.
Proof.
  intros (m & -> & Ht & Hf). unfold load_from_file, load_data. simpl.
  rewrite Ht, Hf. simpl. now destruct (calculate_bounds (JArr fs)).
Qed.

Lemma py_min_seed (x : float) : finite x -> py_min infinity x = x.
Proof. intros [_ Hhi]. unfold py_min. now rewrite Hhi. Qed.

Lemma py_max_seed (x : float) : finite x -> py_max neg_infinity x = x.
Proof. intros [Hlo _]. unfold py_max. now rewrite Hlo. Qed.

Lemma py_max_zero (w d : float) :
  (w =? 0)%float = true -> (d =? 0)%float = true -> (py_max w d =? 0)%float = true.
Proof. intros Hw Hd. unfold py_max. now destruct (w <? d)%float. Qed.

Section EmissionFacts.
Context `{Platform}.




Lemma scale_of_zero (b : cart_box) :
  (box_width b =? 0)%float = true -> (box_depth b =? 0)%float = true ->
  scale_of b = Raise ZeroDivisionError.
Proof.
  intros Hw Hd. unfold scale_of, py_div. now rewrite py_max_zero.
Qed.

(** [_create_stage_objects] up to the end of its first pass. *)
Lemma create_objects_first_pass (fs : list json) (st : stage) :
  create_objects (JArr fs) st
  = match rfold cart_feature box_seed fs with
    | Raise e => (fst (define_root st), Raise e)
    | Ok b =>
        match normalization b with
        | Raise e => (fst (define_root st), Raise e)
        | Ok t => emit_features 0 fs (fst (set_root_ops t (fst (define_root st))))
        end
    end.
Proof.
  unfold create_objects, mbind, lift. simpl.
  destruct (rfold cart_feature box_seed fs) as [b|e]; [|reflexivity].
  destruct (normalization b) as [t|e]; [|reflexivity].
  destruct (root st) as [[t'|]|]; reflexivity.
Qed.


(** A dataset whose only polygon coordinate projects to one finite point
    has zero width and depth, and its emission divides by zero. *)
Lemma single_point_box (feature coord : json) (rest : list json) (x y z : float) :
  polygon_feature feature (JArr (JArr [coord] :: rest)) ->
  project_coord coord = Ok (x, y, z) ->
  finite x -> finite z ->
  rfold cart_feature box_seed [feature] = Ok (mkBox x z x z) /\
  (box_width (mkBox x z x z) =? 0)%float = true /\
  (box_depth (mkBox x z x z) =? 0)%float = true.
Proof.
  intros (m & g & -> & Hg & Ht & Hc) Hp Hx Hz. split; [|split].
  - simpl. unfold cart_feature. simpl. rewrite Hg. simpl. rewrite Ht, Hc. simpl.
    unfold cart_coord. rewrite Hp. simpl.
    now rewrite !py_min_seed, !py_max_seed.
  - now apply finite_sub_self.
  - now apply finite_sub_self.
Qed.

Lemma single_point_dataset (feature coord : json) (rest : list json) (x y z : float)
      (st : stage) :
  polygon_feature feature (JArr (JArr [coord] :: rest)) ->
  project_coord coord = Ok (x, y, z) ->
  finite x -> finite z ->
  create_stage_objects (JArr [feature]) (Some st)
  = (Some (fst (define_root st)), Raise ZeroDivisionError).
Proof.
  intros Hf Hp Hx Hz.
  destruct (single_point_box feature coord rest x y z Hf Hp Hx Hz) as (Hb & Hw & Hd).
  unfold create_stage_objects. rewrite create_objects_first_pass, Hb.
  unfold normalization. now rewrite (scale_of_zero _ Hw Hd).
Qed.

Lemma empty_polygon_cart (feature : json) (b : cart_box) :
  polygon_feature feature (JArr []) -> cart_feature b feature = Raise IndexError.
Proof.
  intros (m & g & -> & Hg & Ht & Hc). unfold cart_feature. simpl.
  rewrite Hg. simpl. now rewrite Ht, Hc.
Qed.

Lemma empty_polygon_emit (feature : json) (i : nat) (st : stage) :
  polygon_feature feature (JArr []) -> emit_feature i feature st = (st, Raise IndexError).
Proof.
  intros (m & g & -> & Hg & Ht & Hc). unfold emit_feature, mbind, lift. simpl.
  rewrite Hg. simpl. now rewrite Ht, Hc.
Qed.

Lemma empty_polygon_loads (feature : json) :
  polygon_feature feature (JArr []) ->
  calculate_bounds (JArr [feature])
  = Ok (Some (mkBounds (infinity, infinity) (neg_infinity, neg_infinity))).
Proof.
  intros (m & g & -> & Hg & Ht & Hc). unfold calculate_bounds. simpl.
  unfold bounds_feature, get_feature_coordinates. simpl. rewrite Hg. simpl.
  now rewrite Ht, Hc.
Qed.

Lemma short_ring_skipped (feature ring : json) (rest : list json) (n i : nat) (st : stage) :
  polygon_feature feature (JArr (ring :: rest)) ->
  py_len ring = Ok n -> n < 3 ->
  emit_feature i feature st = (st, Ok tt).
Proof.
  intros (m & g & -> & Hg & Ht & Hc) Hn H3. unfold emit_feature, mbind, lift. simpl.
  rewrite Hg. simpl. rewrite Ht, Hc. simpl. rewrite Hn.
  now replace (n <? 3) with true by (symmetry; now apply Nat.ltb_lt).
Qed.

(** C10.  A Polygon feature whose "coordinates" is the empty list is
    accepted by the loader, and emission then raises [IndexError] where it
    takes the first ring -- in the first pass, and the second pass would
    raise it as well -- instead of passing the feature over; a Polygon
    whose exterior ring has fewer than 3 entries is passed over by the
    second pass without an exception. *)
Theorem empty_polygon_crashes (feature : json) :
  polygon_feature feature (JArr []) ->
  (forall self data,
      feature_collection data [feature] -> snd (load_from_file self (Ok data)) = true) /\
  (forall st,
      create_stage_objects (JArr [feature]) (Some st)
      = (Some (fst (define_root st)), Raise IndexError)) /\
  (forall i st, emit_feature i feature st = (st, Raise IndexError)) /\
  (forall feature' ring rest n i st,
      polygon_feature feature' (JArr (ring :: rest)) ->
      py_len ring = Ok n -> n < 3 ->
      emit_feature i feature' st = (st, Ok tt)).
Proof.
  intros Hf. repeat split.
  - intros self data Hdata. rewrite (load_collection self data [feature] Hdata).
    now rewrite empty_polygon_loads.
  - intros st. unfold create_stage_objects. rewrite create_objects_first_pass.
    simpl. now rewrite empty_polygon_cart.
  - intros i st. now apply empty_polygon_emit.
  - intros feature' ring rest n i st. apply short_ring_skipped.
Qed.

End EmissionFacts.

(** ** The projector at the origin *)

Section Projection.
Context {platform : Platform}.

(** C8 (amended).  [project(0, 0)] is [(0, 0, z)] with x and y exactly 0
    and [z = -a * log(tan(pi/4) * pow(1, e/2))] as the platform's [tan],
    [pow] and [log] evaluate it, on a platform where [radians(0)] and
    [sin(0)] are 0: z is the product of -6378137 by whatever [log]
    returns there. *)
Theorem project_origin (t p l : float) :
  m_radians 0 = 0%float ->
  m_sin 0 = Ok 0%float ->
  m_tan (math_pi / 4) = Ok t ->
  m_pow 1 (0.081819190842622 / 2) = Ok p ->
  m_log (t * p) = Ok l ->
  geo_to_cartesian 0 0 = Ok (0, 0, - 6378137.0 * l)%float.
Proof.
  intros Hrad Hsin Htan Hpow Hlog. unfold geo_to_cartesian. cbv zeta.
  rewrite Hrad.
  replace (math_pi / 4 + 0 / 2)%float with (math_pi / 4)%float by reflexivity.
  rewrite Htan. unfold rbind at 1. rewrite Hsin. unfold rbind at 1. unfold rbind at 1.
  replace (py_div (1 - 0.081819190842622 * 0) (1 + 0.081819190842622 * 0))
    with (Ok 1%float : result float) by reflexivity.
  unfold rbind at 1. rewrite Hpow. unfold rbind at 1. rewrite Hlog. reflexivity.
Qed.

End Projection.

Lemma project_origin_witness :
  geo_to_cartesian (H := libm_at_origin) 0 0
  = Ok (0, 0, - 6378137.0 * (-0x1p-53))%float.
Proof.
  apply (project_origin (platform := libm_at_origin) 0x1.fffffffffffffp-1 1 (-0x1p-53));
    reflexivity.
Defined.

(** C8, as stated, fails on a correctly rounded libm: the z of
    [project(0, 0)] is 6378137 * 2^-53, about 7.08e-10, not 0. *)
Lemma project_origin_not_zero :
  geo_to_cartesian (H := libm_at_origin) 0 0 = Ok (0, 0, 0x1.854a64p-31)%float /\
  (0x1.854a64p-31 =? 0)%float = false.
Proof. split; reflexivity. Qed.

(** ** Concrete runs *)

Lemma ring_normalization_witness :
  working_vertices unit_square = removelast unit_square /\
  triangulate_polygon [zpoint 0 0; zpoint 1 0; zpoint 0 0] = [] /\
  triangulate_polygon [zpoint 0 0; zpoint 1 0] = [].
Proof.
  split; [|split].
  - apply (proj1 (ring_normalization unit_square) (zpoint 0 0)
                 [zpoint 1 0; zpoint 1 (-1); zpoint 0 (-1); zpoint 0 0] eq_refl).
    reflexivity.
  - apply (proj1 (proj2 (proj2 (ring_normalization [zpoint 0 0; zpoint 1 0; zpoint 0 0])))).
    simpl. lia.
  - apply (proj2 (proj2 (proj2 (ring_normalization [zpoint 0 0; zpoint 1 0])))).
    simpl. lia.
Defined.


Lemma empty_polygon_shape : polygon_feature empty_polygon (JArr []).
Proof. do 2 eexists. repeat split; reflexivity. Qed.




Lemma empty_polygon_crashes_witness :
  @create_stage_objects identity_platform (JArr [empty_polygon]) (Some empty_stage)
  = (Some (fst (define_root empty_stage)), Raise IndexError) /\
  @emit_feature identity_platform 0 two_point_polygon empty_stage = (empty_stage, Ok tt).
Proof.
  destruct (@empty_polygon_crashes identity_platform empty_polygon empty_polygon_shape)
    as (_ & H2 & _ & H4).
  split; [apply H2|].
  eapply (H4 two_point_polygon _ [] 2).
  - do 2 eexists. repeat split; reflexivity.
  - reflexivity.
  - lia.
Defined.

(** * Further properties *)

(** ** Index lists in increasing order *)

Lemma increasing_seq (k m : nat) : increasing (seq k m).
Proof.
  intros a b Hab Hb. rewrite length_seq in Hb. rewrite !seq_nth by lia. lia.
Qed.

Lemma increasing_inj (l : list nat) (a b : nat) :
  increasing l -> a < length l -> b < length l -> nth a l 0 = nth b l 0 -> a = b.
Proof.
  intros Hinc Ha Hb E.
  destruct (Nat.lt_trichotomy a b) as [Hlt | [-> | Hlt]]; [|reflexivity|];
    apply Hinc in Hlt; lia.
Qed.

Lemma increasing_cyc (l : list nat) (a b c : nat) :
  increasing l -> a < length l -> b < length l -> c < length l ->
  cyc a b c -> cyc (nth a l 0) (nth b l 0) (nth c l 0).
Proof.
  intros Hinc Ha Hb Hc [[H1 H2] | [[H1 H2] | [H1 H2]]];
    apply Hinc in H1, H2; unfold cyc; lia.
Qed.

Lemma list_index_In (i : nat) (l : list nat) :
  In i l -> list_index i l < length l /\ nth (list_index i l) l 0 = i.
Proof.
  induction l as [|x l IH]; simpl; [tauto|].
  intros Hin. destruct (Nat.eqb x i) eqn:E.
  - apply Nat.eqb_eq in E. split; [lia | exact E].
  - apply Nat.eqb_neq in E. destruct Hin as [->|Hin]; [congruence|].
    destruct (IH Hin). split; [lia | assumption].
Qed.

Lemma list_index_nth (l : list nat) (p : nat) :
  increasing l -> p < length l -> list_index (nth p l 0) l = p.
Proof.
  intros Hinc Hp.
  destruct (list_index_In (nth p l 0) l (nth_In l 0 Hp)) as [Hlt Hnth].
  now apply (increasing_inj l).
Qed.

Lemma py_mod_next (p m : nat) :
  p < m -> py_mod (Z.of_nat p + 1) m = if S p =? m then 0 else S p.
Proof.
  intros Hp. unfold py_mod. destruct (S p =? m) eqn:E.
  - apply Nat.eqb_eq in E.
    replace (Z.of_nat p + 1)%Z with (0 + 1 * Z.of_nat m)%Z by lia.
    rewrite Z.mod_add by lia. rewrite Z.mod_small by lia. reflexivity.
  - apply Nat.eqb_neq in E. rewrite Z.mod_small by lia. lia.
Qed.

Lemma py_mod_prev (p m : nat) :
  p < m -> py_mod (Z.of_nat p - 1) m = if p =? 0 then m - 1 else p - 1.
Proof.
  intros Hp. unfold py_mod. destruct (p =? 0) eqn:E.
  - apply Nat.eqb_eq in E. subst p.
    replace (Z.of_nat 0 - 1)%Z with (Z.of_nat m - 1 + (-1) * Z.of_nat m)%Z by lia.
    rewrite Z.mod_add by lia. rewrite Z.mod_small by lia. lia.
  - apply Nat.eqb_neq in E. rewrite Z.mod_small by lia. lia.
Qed.

(** A vertex of the ring with its two neighbours, by position. *)
Lemma neighbours_at (l : list nat) (i : nat) :
  increasing l -> In i l ->
  exists p, p < length l /\ i = nth p l 0 /\
    prev_of l i = nth (if p =? 0 then length l - 1 else p - 1) l 0 /\
    next_of l i = nth (if S p =? length l then 0 else S p) l 0.
Proof.
  intros Hinc Hin. destruct (list_index_In i l Hin) as [Hlt Hnth].
  exists (list_index i l). repeat split; [assumption | now symmetry | |].
  - unfold prev_of. now rewrite py_mod_prev.
  - unfold next_of. now rewrite py_mod_next.
Qed.

(** The ring around a vertex: its neighbours differ from it and from one
    another, and every other vertex comes after the next one and before
    the previous one. *)
Lemma neighbours (l : list nat) (i : nat) :
  increasing l -> 3 <= length l -> In i l ->
  In (prev_of l i) l /\ In (next_of l i) l /\
  prev_of l i <> i /\ next_of l i <> i /\ prev_of l i <> next_of l i /\
  prev_of l (next_of l i) = i /\
  (forall x, In x l -> x <> prev_of l i -> x <> i -> cyc (prev_of l i) i x) /\
  (forall x, In x l -> x <> i -> x <> next_of l i -> cyc i (next_of l i) x).
Proof.
  intros Hinc Hm Hin.
  destruct (neighbours_at l i Hinc Hin) as (p & Hp & Hi & Hprev & Hnext).
  set (pp := if p =? 0 then length l - 1 else p - 1) in *.
  set (pn := if S p =? length l then 0 else S p) in *.
  assert (pp < length l) as Hpp by (unfold pp; destruct (p =? 0); lia).
  assert (pn < length l) as Hpn
      by (unfold pn; destruct (Nat.eqb_spec (S p) (length l)); lia).
  assert (pp <> p /\ pn <> p /\ pp <> pn) as (Hd1 & Hd2 & Hd3).
  { unfold pp, pn.
    destruct (Nat.eqb_spec p 0), (Nat.eqb_spec (S p) (length l)); lia. }
  rewrite Hprev, Hnext.
  assert (forall a b, a < length l -> b < length l -> a <> b -> nth a l 0 <> nth b l 0)
    as Hne by (intros a b Ha Hb Hab E; apply Hab; now apply (increasing_inj l)).
  split; [now apply nth_In|]. split; [now apply nth_In|].
  rewrite Hi at 1 2 3.
  split; [now apply Hne|]. split; [now apply Hne|]. split; [now apply Hne|].
  split.
  { destruct (neighbours_at l (nth pn l 0) Hinc (nth_In l 0 Hpn))
      as (q & Hq & Hqi & Hqprev & _).
    apply (increasing_inj l) in Hqi; [|assumption..]. subst q.
    rewrite Hqprev. f_equal.
    unfold pn. destruct (Nat.eqb_spec (S p) (length l)); simpl; lia. }
  split.
  - intros x Hx Hx1 Hx2. apply (In_nth l x 0) in Hx as (q & Hq & <-).
    rewrite Hi. apply increasing_cyc; try assumption.
    assert (q <> pp) by (intros ->; now apply Hx1).
    assert (q <> p) by (intros ->; now apply Hx2).
    unfold pp in *. unfold cyc. destruct (Nat.eqb_spec p 0); lia.
  - intros x Hx Hx1 Hx2. apply (In_nth l x 0) in Hx as (q & Hq & <-).
    rewrite Hi. apply increasing_cyc; try assumption.
    assert (q <> p) by (intros ->; now apply Hx1).
    assert (q <> pn) by (intros ->; now apply Hx2).
    unfold pn in *. unfold cyc. destruct (Nat.eqb_spec (S p) (length l)); lia.
Qed.

Lemma nth_list_remove (l : list nat) (i a : nat) :
  nth a (list_remove i l) 0
  = nth (if a <? list_index i l then a else S a) l 0.
Proof.
  revert a. induction l as [|x l IH]; intros a; simpl.
  - now destruct a.
  - destruct (Nat.eqb x i); [reflexivity|].
    destruct a as [|a]; [reflexivity|]. simpl nth at 1. rewrite IH.
    change (S a <? S (list_index i l)) with (a <? list_index i l).
    now destruct (a <? list_index i l).
Qed.

Lemma increasing_remove (l : list nat) (i : nat) :
  increasing l -> In i l -> increasing (list_remove i l).
Proof.
  intros Hinc Hin a b Hab Hb.
  pose proof (list_remove_length i l Hin) as Hlen.
  rewrite !nth_list_remove.
  destruct (Nat.ltb_spec a (list_index i l)), (Nat.ltb_spec b (list_index i l));
    apply Hinc; lia.
Qed.

Lemma list_remove_In (l : list nat) (i x : nat) :
  In x l -> x <> i -> In x (list_remove i l).
Proof.
  induction l as [|y l IH]; simpl; [tauto|].
  intros [->|Hin] Hne.
  - destruct (Nat.eqb x i) eqn:E; [apply Nat.eqb_eq in E; congruence | now left].
  - destruct (Nat.eqb y i); [assumption | right; now apply IH].
Qed.

(** Four or more vertices: some vertex is none of three given ones. *)
Lemma fourth_vertex (l : list nat) (u i w : nat) :
  increasing l -> 4 <= length l ->
  exists x, In x l /\ x <> u /\ x <> i /\ x <> w.
Proof.
  intros Hinc Hm.
  pose proof (Hinc 0 1 ltac:(lia) ltac:(lia)) as H01.
  pose proof (Hinc 1 2 ltac:(lia) ltac:(lia)) as H12.
  pose proof (Hinc 2 3 ltac:(lia) ltac:(lia)) as H23.
  assert (forall q, q < 4 -> In (nth q l 0) l) as Hin by (intros; apply nth_In; lia).
  destruct (Nat.eq_dec (nth 0 l 0) u), (Nat.eq_dec (nth 0 l 0) i), (Nat.eq_dec (nth 0 l 0) w);
    try (exists (nth 0 l 0); split; [apply Hin; lia | lia]);
  destruct (Nat.eq_dec (nth 1 l 0) u), (Nat.eq_dec (nth 1 l 0) i), (Nat.eq_dec (nth 1 l 0) w);
    try (exists (nth 1 l 0); split; [apply Hin; lia | lia]);
  destruct (Nat.eq_dec (nth 2 l 0) u), (Nat.eq_dec (nth 2 l 0) i), (Nat.eq_dec (nth 2 l 0) w);
    try (exists (nth 2 l 0); split; [apply Hin; lia | lia]);
  exists (nth 3 l 0); (split; [apply Hin; lia | lia]).
Qed.

Lemma find_some_ex {A} (f : A -> bool) (l : list A) (x : A) :
  In x l -> f x = true -> exists y, find f l = Some y.
Proof.
  intros Hin Hf. destruct (find f l) as [y|] eqn:E; [now exists y|].
  rewrite (find_none f l E x Hin) in Hf. discriminate.
Qed.

(** ** The shape of the triangulator's output *)

Lemma triangles_app_flatten (ts : list (nat * nat * nat)) (l : list nat) :
  triangles (flatten ts ++ l) = ts ++ triangles l.
Proof.
  induction ts as [|[[a b] c] ts IH]; simpl; [reflexivity|]. now rewrite IH.
Qed.

Section TriangulatorShape.
Context {R : Type} `{Scalar R}.

Lemma triangulate_polygon_short (points : list (Vec3 R)) :
  length (working_vertices points) < 3 -> triangulate_polygon points = [].
Proof.
  intros H3. unfold triangulate_polygon.
  apply Nat.ltb_lt in H3. rewrite H3. now destruct (length points <? 3).
Qed.

(** The loop keeps [remaining] in increasing order and at three entries
    or more, takes three indices per removed vertex, and every triple it
    takes has three different indices. *)
Lemma ear_loop_shape (vertices : list (Vec3 R)) (fuel : nat) (remaining : list nat) :
  increasing remaining -> 3 <= length remaining ->
  let out := ear_loop vertices fuel remaining [] in
  increasing (fst out) /\ 3 <= length (fst out) /\
  length (snd out) + 3 * length (fst out) = 3 * length remaining /\
  exists ts, snd out = flatten ts /\ Forall distinct_corners ts.
Proof.
  intros Hinc H3.
  apply (ear_loop_invariant
           (fun rem ix =>
              increasing rem /\ 3 <= length rem /\
              length ix + 3 * length rem = 3 * length remaining /\
              exists ts, ix = flatten ts /\ Forall distinct_corners ts)).
  - clear Hinc H3. intros rem ix i (Hinc & H3 & Hcount & ts & -> & Hts) Hlen Hfind.
    apply find_some in Hfind as [Hi _].
    pose proof (list_remove_length i rem Hi) as Hrem.
    destruct (neighbours rem i Hinc H3 Hi) as (_ & _ & Hui & Hwi & Huw & _).
    split; [now apply increasing_remove|]. split; [lia|]. split.
    + rewrite length_app. simpl. lia.
    + exists (ts ++ [(prev_of rem i, i, next_of rem i)]). split.
      * now rewrite flatten_app.
      * apply Forall_app. split; [assumption|].
        constructor; [|constructor]. unfold distinct_corners. simpl. auto.
  - split; [assumption|]. split; [assumption|]. split; [simpl; lia|].
    exists []. split; [reflexivity | constructor].
Qed.

(** X3.  The triangulator returns the n - 2 triangles of a complete
    triangulation of its n working vertices, or, when the loop gave up,
    at most n - 4 triangles. *)
Theorem triangle_count_bound (points : list (Vec3 R)) :
  length (triangulate_polygon points) = 3 * (length (working_vertices points) - 2) \/
  length (triangulate_polygon points) + 6 <= 3 * (length (working_vertices points) - 2).
Proof.
  destruct (Nat.ltb_spec (length (working_vertices points)) 3) as [Hlt | Hge].
  - left. rewrite triangulate_polygon_short by assumption. simpl. lia.
  - rewrite triangulate_polygon_run by assumption. unfold ear_clipping.
    set (n := length (working_vertices points)) in *.
    destruct (ear_loop_shape (working_vertices points) n (seq 0 n)
                (increasing_seq 0 n) ltac:(rewrite length_seq; lia))
      as (_ & H3 & Hcount & _).
    rewrite length_seq in Hcount.
    destruct (ear_loop (working_vertices points) n (seq 0 n) []) as [remaining indices].
    simpl in *. destruct (Nat.eqb_spec (length remaining) 3) as [E|E].
    + left. rewrite length_app. lia.
    + right. lia.
Qed.

(** X4.  Every triangle of the output names three different vertices. *)
Theorem triangle_corners_distinct (points : list (Vec3 R)) :
  Forall distinct_corners (triangles (triangulate_polygon points)).
Proof.
  destruct (Nat.ltb_spec (length (working_vertices points)) 3) as [Hlt | Hge].
  - rewrite triangulate_polygon_short by assumption. constructor.
  - rewrite triangulate_polygon_run by assumption. unfold ear_clipping.
    set (n := length (working_vertices points)) in *.
    destruct (ear_loop_shape (working_vertices points) n (seq 0 n)
                (increasing_seq 0 n) ltac:(rewrite length_seq; lia))
      as (Hinc & H3 & _ & ts & Hix & Hts).
    destruct (ear_loop (working_vertices points) n (seq 0 n) []) as [remaining indices].
    simpl in *. subst indices.
    destruct (Nat.eqb_spec (length remaining) 3) as [E|E].
    + rewrite triangles_app_flatten. apply Forall_app. split; [assumption|].
      destruct remaining as [|a [|b [|c [|d l]]]]; try discriminate.
      simpl. constructor; [|constructor].
      pose proof (Hinc 0 1 ltac:(lia) ltac:(simpl; lia)).
      pose proof (Hinc 1 2 ltac:(lia) ltac:(simpl; lia)).
      unfold distinct_corners. simpl in *. lia.
    + replace (flatten ts) with (flatten ts ++ []) by apply app_nil_r.
      rewrite triangles_app_flatten. simpl. now rewrite app_nil_r.
Qed.

End TriangulatorShape.

Section TriangulatorRange.
Context {R : Type} `{Scalar R}.

(** The output is made of whole triangles over the working vertices: the
    closing point of the ring is never indexed. *)
Lemma triangulate_polygon_mesh (points : list (Vec3 R)) :
  (exists k, length (triangulate_polygon points) = 3 * k) /\
  Forall (fun i => i < length (working_vertices points)) (triangulate_polygon points).
Proof.
  destruct (Nat.ltb_spec (length (working_vertices points)) 3) as [Hlt | Hge].
  - rewrite triangulate_polygon_short by assumption. split; [now exists 0 | constructor].
  - rewrite triangulate_polygon_run by assumption. unfold ear_clipping.
    set (n := length (working_vertices points)) in *.
    assert (Forall (fun i => i < n) (seq 0 n)) as Hseq
        by (apply Forall_forall; intros x Hx; apply in_seq in Hx; lia).
    destruct (ear_loop_in_range (working_vertices points) n n (seq 0 n) []
                Hseq (Forall_nil _)) as [Hr Hi].
    destruct (ear_loop_shape (working_vertices points) n (seq 0 n)
                (increasing_seq 0 n) ltac:(rewrite length_seq; lia))
      as (_ & _ & Hcount & _).
    rewrite length_seq in Hcount.
    destruct (ear_loop (working_vertices points) n (seq 0 n) []) as [remaining indices].
    simpl in *. destruct (Nat.eqb_spec (length remaining) 3) as [E|E].
    + split; [|apply Forall_app; now split].
      exists (n - 2). rewrite length_app. lia.
    + split; [|assumption]. exists (n - length remaining). lia.
Qed.

End TriangulatorRange.

(** ** Plane geometry on exact coordinates, continued *)

(** Two lines through [i] that are not parallel meet only at [i]. *)
Lemma two_lines (u i w x : Vec3 Z) :
  cross_y u i w <> 0%Z -> cross_y x u i = 0%Z -> cross_y i w x = 0%Z -> same_place x i.
Proof.
  intros HD H1 H2.
  assert (cross_y u i w * (vx x - vx i) = 0)%Z as Hx.
  { replace (cross_y u i w * (vx x - vx i))%Z
      with (cross_y i w x * (vx u - vx i) + cross_y x u i * (vx w - vx i))%Z
      by (unfold cross_y; simpl; ring).
    rewrite H1, H2. ring. }
  assert (cross_y u i w * (vz x - vz i) = 0)%Z as Hz.
  { replace (cross_y u i w * (vz x - vz i))%Z
      with (cross_y i w x * (vz u - vz i) + cross_y x u i * (vz w - vz i))%Z
      by (unfold cross_y; simpl; ring).
    rewrite H1, H2. ring. }
  apply Z.mul_eq_0 in Hx, Hz. unfold same_place. lia.
Qed.

(** Collinearity is transitive along a line through two distinct points. *)
Lemma collinear_trans (u w p q r : Vec3 Z) :
  ~ same_place p q ->
  cross_y u w p = 0%Z -> cross_y u w q = 0%Z -> cross_y p q r = 0%Z ->
  cross_y u w r = 0%Z.
Proof.
  intros Hpq Hp Hq Hr.
  assert ((vx q - vx p) * cross_y u w r = 0)%Z as Hx.
  { replace ((vx q - vx p) * cross_y u w r)%Z
      with ((vx q - vx r) * cross_y u w p + (vx r - vx p) * cross_y u w q
            + (vx w - vx u) * cross_y p q r)%Z
      by (unfold cross_y; simpl; ring).
    rewrite Hp, Hq, Hr. ring. }
  assert ((vz q - vz p) * cross_y u w r = 0)%Z as Hz.
  { replace ((vz q - vz p) * cross_y u w r)%Z
      with ((vz q - vz r) * cross_y u w p + (vz r - vz p) * cross_y u w q
            + (vz w - vz u) * cross_y p q r)%Z
      by (unfold cross_y; simpl; ring).
    rewrite Hp, Hq, Hr. ring. }
  apply Z.mul_eq_0 in Hx, Hz. unfold same_place in Hpq. lia.
Qed.

Lemma cross_y_flip (p q r : Vec3 Z) : cross_y p q r = (- cross_y r q p)%Z.
Proof. unfold cross_y. simpl. ring. Qed.

Lemma cross_y_twice (p q : Vec3 Z) : cross_y p q p = 0%Z /\ cross_y p q q = 0%Z.
Proof. unfold cross_y. simpl. split; ring. Qed.

(** Three points of the line through two places are collinear. *)
Lemma line_triple (u w a b c : Vec3 Z) :
  ~ same_place u w ->
  cross_y u w a = 0%Z -> cross_y u w b = 0%Z -> cross_y u w c = 0%Z ->
  cross_y a b c = 0%Z.
Proof.
  intros Huw Ha Hb Hc.
  assert ((vx w - vx u) * cross_y a b c = 0)%Z as Hx.
  { replace ((vx w - vx u) * cross_y a b c)%Z
      with ((vx b - vx a) * (cross_y u w c - cross_y u w b)
            - (cross_y u w b - cross_y u w a) * (vx c - vx b))%Z
      by (unfold cross_y; simpl; ring).
    rewrite Ha, Hb, Hc. ring. }
  assert ((vz w - vz u) * cross_y a b c = 0)%Z as Hz.
  { replace ((vz w - vz u) * cross_y a b c)%Z
      with ((vz b - vz a) * (cross_y u w c - cross_y u w b)
            - (cross_y u w b - cross_y u w a) * (vz c - vz b))%Z
      by (unfold cross_y; simpl; ring).
    rewrite Ha, Hb, Hc. ring. }
  apply Z.mul_eq_0 in Hx, Hz. unfold same_place in Huw. lia.
Qed.

(** [x] written over the triangle [u i w]: the orientation of [y x u] and
    of [w x y] from those at the corners. *)
Lemma cross_y_over_u (u i w x y : Vec3 Z) :
  (cross_y u i w * cross_y y x u
   = cross_y u x w * cross_y y i u + cross_y u i x * cross_y y w u)%Z.
Proof. unfold cross_y. simpl. ring. Qed.

Lemma cross_y_over_w (u i w x y : Vec3 Z) :
  (cross_y u i w * cross_y w x y
   = cross_y x i w * cross_y w u y + cross_y u x w * cross_y w i y)%Z.
Proof. unfold cross_y. simpl. ring. Qed.

(** [_point_in_triangle] answers no exactly when the three orientations
    around [p] have both signs. *)
Lemma point_in_triangle_false (p a b c : Vec3 Z) :
  point_in_triangle p a b c = false <->
  ((0 < cross_y p a b \/ 0 < cross_y p b c \/ 0 < cross_y p c a) /\
   (cross_y p a b < 0 \/ cross_y p b c < 0 \/ cross_y p c a < 0))%Z.
Proof.
  unfold point_in_triangle. rewrite !sign_cross_y. cbv zeta.
  rewrite negb_false_iff, andb_true_iff, !orb_true_iff.
  change (@s_ltb Z Scalar_Z) with Z.ltb. change (@s_zero Z Scalar_Z) with 0%Z.
  rewrite !Z.ltb_lt. lia.
Qed.

Lemma all_or_some (P Q : nat -> Prop) (l : list nat) :
  (forall x, In x l -> P x \/ Q x) ->
  (forall x, In x l -> P x) \/ (exists x, In x l /\ Q x).
Proof.
  induction l as [|y l IH]; intros Hdec.
  - left. intros x [].
  - destruct (Hdec y (or_introl eq_refl)) as [HP | HQ].
    + destruct IH as [Hall | (x & Hx & HQ)].
      * intros x Hx. apply Hdec. now right.
      * left. intros x [<-|Hx]; auto.
      * right. exists x. split; [now right | assumption].
    + right. exists y. split; [now left | assumption].
Qed.


(** X6.  The border counts as inside: [_point_in_triangle] on exact
    coordinates answers yes for each of the three corners of the triangle
    itself, whatever the triangle. *)
Theorem point_in_triangle_corners (a b c : Vec3 Z) :
  point_in_triangle a a b c = true /\
  point_in_triangle b a b c = true /\
  point_in_triangle c a b c = true.
Proof.
  assert (forall p, point_in_triangle p a b c <> false -> point_in_triangle p a b c = true)
    as Hnot by (intros p; destruct (point_in_triangle p a b c); congruence).
  repeat split; apply Hnot; intros E; apply point_in_triangle_false in E;
    revert E; unfold cross_y; simpl; nia.
Qed.



(** ** Convex rings with vertices inside their edges *)

Section WeaklyConvex.
Variable vertices : list (Vec3 Z).

Local Abbreviation v i := (nth i vertices vec_zero).
Local Abbreviation cr a b c := (cross_y (v a) (v b) (v c)).
Local Abbreviation n := (length vertices).

Hypothesis Hturn : forall i j k, i < j -> j < k -> k < n -> (0 <= cr i j k)%Z.
Hypothesis Hplaces : forall i j, i < j -> j < n -> ~ same_place (v i) (v j).

Lemma cyc_cross (a b c : nat) :
  cyc a b c -> a < n -> b < n -> c < n -> (0 <= cr a b c)%Z.
Proof.
  intros [[H1 H2] | [[H1 H2] | [H1 H2]]] Ha Hb Hc.
  - now apply Hturn.
  - rewrite cross_y_rotate. now apply Hturn.
  - rewrite cross_y_rotate, cross_y_rotate. now apply Hturn.
Qed.

Lemma places_differ (a b : nat) :
  a <> b -> a < n -> b < n -> ~ same_place (v a) (v b).
Proof.
  intros Hab Ha Hb. destruct (Nat.lt_trichotomy a b) as [Hlt | [-> | Hlt]].
  - now apply Hplaces.
  - congruence.
  - intros [E1 E2]. apply (Hplaces b a Hlt Ha). now split.
Qed.

Section Ring.
Variable remaining : list nat.
Hypothesis Hinc : increasing remaining.
Hypothesis Hbound : forall x, In x remaining -> x < n.
Hypothesis Hsize : 4 <= length remaining.

Local Abbreviation r p := (nth p remaining 0).
Local Abbreviation prev i := (prev_of remaining i).
Local Abbreviation next i := (next_of remaining i).

(** The ring as seen from a corner [i]. *)
Lemma corner (i : nat) :
  In i remaining ->
  In (prev i) remaining /\ In (next i) remaining /\
  prev i <> i /\ next i <> i /\ prev i <> next i /\
  prev (next i) = i /\
  cyc (prev i) i (next i) /\
  forall x, In x remaining -> x <> prev i -> x <> i -> x <> next i ->
    cyc (prev i) i x /\ cyc i (next i) x /\ cyc (prev i) (next i) x.
Proof.
  intros Hi.
  destruct (neighbours remaining i Hinc ltac:(lia) Hi)
    as (Hu & Hw & Hui & Hwi & Huw & Hback & Hbefore & Hafter).
  assert (cyc (prev i) i (next i)) as Hcyc by (apply Hbefore; auto).
  repeat (split; [assumption|]).
  intros x Hx Hxu Hxi Hxw.
  pose proof (Hbefore x Hx Hxu Hxi) as H1.
  pose proof (Hafter x Hx Hxi Hxw) as H2.
  split; [assumption|]. split; [assumption|].
  unfold cyc in *. lia.
Qed.

(** In a weakly convex ring, a corner that turns left and whose chord
    [prev -> next] has every other vertex strictly on its left is an ear. *)
Lemma ear_sufficient (i : nat) :
  In i remaining ->
  (0 < cr (prev i) i (next i))%Z ->
  (forall x, In x remaining -> x <> prev i -> x <> i -> x <> next i ->
     (0 < cr (prev i) (next i) x)%Z) ->
  is_valid_ear vertices remaining i = true.
Proof.
  intros Hi Hleft Hchord.
  destruct (corner i Hi) as (Hu & Hw & Hui & Hwi & Huw & _ & Hcyc & Hothers).
  unfold is_valid_ear.
  replace (length remaining <? 3) with false by (symmetry; apply Nat.ltb_ge; lia).
  replace (s_leb (cr (prev i) i (next i)) s_zero) with false
    by (symmetry; apply Z.leb_gt; exact Hleft).
  apply forallb_forall. intros x Hx.
  destruct (Nat.eqb_spec x (prev i)) as [|Hxu]; [reflexivity|].
  destruct (Nat.eqb_spec x i) as [|Hxi]; [reflexivity|].
  destruct (Nat.eqb_spec x (next i)) as [|Hxw]; [reflexivity|].
  simpl. apply negb_true_iff, point_in_triangle_false.
  destruct (Hothers x Hx Hxu Hxi Hxw) as (H1 & H2 & H3).
  pose proof (Hchord x Hx Hxu Hxi Hxw) as Hpos.
  assert (0 <= cr x (prev i) i)%Z as Ha
      by (apply cyc_cross; auto; unfold cyc in *; lia).
  assert (0 <= cr x i (next i))%Z as Hb
      by (apply cyc_cross; auto; unfold cyc in *; lia).
  split.
  - destruct (Z.eq_dec (cr x (prev i) i) 0) as [Ea|]; [|lia].
    destruct (Z.eq_dec (cr x i (next i)) 0) as [Eb|]; [|lia].
    exfalso. apply (places_differ x i Hxi); auto.
    apply (two_lines (v (prev i)) (v i) (v (next i)) (v x)); [lia | assumption |].
    now rewrite <- cross_y_rotate.
  - right. right. rewrite cross_y_flip. lia.
Qed.

(** Conversely, the chord of an ear has every other vertex strictly on
    its left. *)
Lemma ear_necessary (i : nat) :
  In i remaining ->
  is_valid_ear vertices remaining i = true ->
  (0 < cr (prev i) i (next i))%Z /\
  forall x, In x remaining -> x <> prev i -> x <> i -> x <> next i ->
    (0 < cr (prev i) (next i) x)%Z.
Proof.
  intros Hi Hear.
  destruct (corner i Hi) as (Hu & Hw & Hui & Hwi & Huw & _ & Hcyc & Hothers).
  unfold is_valid_ear in Hear.
  destruct (length remaining <? 3); [discriminate|].
  destruct (s_leb (cr (prev i) i (next i)) s_zero) eqn:Hleft; [discriminate|].
  apply Z.leb_gt in Hleft. split; [exact Hleft|].
  intros x Hx Hxu Hxi Hxw.
  rewrite forallb_forall in Hear. specialize (Hear x Hx).
  destruct (Nat.eqb_spec x (prev i)); [contradiction|].
  destruct (Nat.eqb_spec x i); [contradiction|].
  destruct (Nat.eqb_spec x (next i)); [contradiction|].
  simpl in Hear. apply negb_true_iff, point_in_triangle_false in Hear.
  destruct Hear as [_ Hneg].
  destruct (Hothers x Hx Hxu Hxi Hxw) as (H1 & H2 & H3).
  assert (0 <= cr x (prev i) i)%Z as Ha
      by (apply cyc_cross; auto; unfold cyc in *; lia).
  assert (0 <= cr x i (next i))%Z as Hb
      by (apply cyc_cross; auto; unfold cyc in *; lia).
  rewrite (cross_y_flip (v x) (v (next i)) (v (prev i))) in Hneg. lia.
Qed.


(** Either some corner at a middle position turns left, or the vertices
    up to the next position are on the line of the first two. *)
Lemma first_line (k : nat) :
  S k < length remaining ->
  (exists p, 1 <= p /\ p <= k /\ (0 < cr (r (p - 1)) (r p) (r (S p)))%Z) \/
  (forall j, j <= S k -> cr (r 0) (r 1) (r j) = 0%Z).
Proof.
  induction k as [|k IH]; intros Hk.
  - right. intros j Hj.
    assert (j = 0 \/ j = 1) as [-> | ->] by lia; apply cross_y_twice.
  - destruct IH as [(p & Hp1 & Hp2 & Hleft) | Hline]; [lia | |].
    + left. exists p. repeat split; [assumption | lia | assumption].
    + assert (r k < r (S k)) as H1 by (apply Hinc; lia).
      assert (r (S k) < r (S (S k))) as H2 by (apply Hinc; lia).
      assert (r (S (S k)) < n) as H3 by (apply Hbound, nth_In; lia).
      pose proof (Hturn _ _ _ H1 H2 H3) as Hge.
      destruct (Z.eq_dec (cr (r k) (r (S k)) (r (S (S k)))) 0) as [E|Hne].
      * right. intros j Hj.
        destruct (Nat.eq_dec j (S (S k))) as [->|]; [|apply Hline; lia].
        apply (collinear_trans _ _ (v (r k)) (v (r (S k)))); auto.
        apply Hplaces; lia.
      * left. exists (S k). replace (S k - 1) with k by lia.
        repeat split; lia.
Qed.

(** A ring with area has a corner that turns left. *)
Lemma strict_corner :
  has_area vertices remaining ->
  exists i, In i remaining /\ (0 < cr (prev i) i (next i))%Z.
Proof.
  intros (a & b & c & Ha & Hb & Hc & Harea).
  destruct (first_line (length remaining - 2) ltac:(lia))
    as [(p & Hp1 & Hp2 & Hleft) | Hline].
  - assert (p < length remaining) as Hp by lia.
    exists (r p). split; [now apply nth_In|].
    destruct (neighbours_at remaining (r p) Hinc (nth_In _ 0 Hp))
      as (q & Hq & Hqp & Hprev & Hnext).
    apply (increasing_inj remaining) in Hqp; [|assumption..]. subst q.
    rewrite Hprev, Hnext.
    destruct (Nat.eqb_spec p 0); [lia|].
    destruct (Nat.eqb_spec (S p) (length remaining)); [lia|]. exact Hleft.
  - exfalso. apply Harea.
    apply (In_nth _ _ 0) in Ha as (pa & Hpa & <-).
    apply (In_nth _ _ 0) in Hb as (pb & Hpb & <-).
    apply (In_nth _ _ 0) in Hc as (pc & Hpc & <-).
    apply (line_triple (v (r 0)) (v (r 1))); [|apply Hline; lia..].
    apply Hplaces; [apply Hinc; lia | apply Hbound, nth_In; lia].
Qed.

(** When the chord of a left-turning corner [i] passes through another
    vertex, every vertex but [i] is on that chord: the ring is a triangle
    with [i] at the apex and the other vertices along the opposite side. *)
Lemma chord_line (i x : nat) :
  In i remaining -> (0 < cr (prev i) i (next i))%Z ->
  In x remaining -> x <> prev i -> x <> i -> x <> next i ->
  cr (prev i) (next i) x = 0%Z ->
  forall y, In y remaining -> y <> i -> cr (prev i) (next i) y = 0%Z.
Proof.
  intros Hi Hleft Hx Hxu Hxi Hxw Hon y Hy Hyi.
  destruct (corner i Hi) as (Hu & Hw & Hui & Hwi & Huw & _ & Hcyc & Hothers).
  destruct (Nat.eq_dec y (prev i)) as [->|Hyu]; [apply cross_y_twice|].
  destruct (Nat.eq_dec y (next i)) as [->|Hyw]; [apply cross_y_twice|].
  destruct (Nat.eq_dec y x) as [->|Hyx]; [assumption|].
  destruct (Hothers x Hx Hxu Hxi Hxw) as (X1 & X2 & X3).
  destruct (Hothers y Hy Hyu Hyi Hyw) as (Y1 & Y2 & Y3).
  pose proof (Hbound _ Hi) as Bi. pose proof (Hbound _ Hu) as Bu.
  pose proof (Hbound _ Hw) as Bw. pose proof (Hbound _ Hx) as Bx.
  pose proof (Hbound _ Hy) as By.
  assert (0 < cr i (next i) x)%Z as Au.
  { assert (0 <= cr i (next i) x)%Z by now apply cyc_cross.
    destruct (Z.eq_dec (cr i (next i) x) 0) as [E|]; [|lia].
    exfalso. apply (places_differ x (next i) Hxw Bx Bw).
    apply (two_lines (v i) (v (next i)) (v (prev i)) (v x)).
    - rewrite <- cross_y_rotate. lia.
    - now rewrite cross_y_rotate.
    - rewrite cross_y_swap. lia. }
  assert (0 < cr x (prev i) i)%Z as Aw.
  { assert (0 <= cr x (prev i) i)%Z
      by (apply cyc_cross; auto; unfold cyc in *; lia).
    destruct (Z.eq_dec (cr x (prev i) i) 0) as [E|]; [|lia].
    exfalso. apply (places_differ x (prev i) Hxu Bx Bu).
    apply (two_lines (v (next i)) (v (prev i)) (v i) (v x)).
    - rewrite <- cross_y_rotate, <- cross_y_rotate. lia.
    - rewrite cross_y_flip. lia.
    - now rewrite cross_y_rotate, cross_y_rotate. }
  assert (0 <= cr (prev i) (next i) y)%Z as Hge by now apply cyc_cross.
  assert (cr (prev i) x (next i) = 0)%Z as Hmid
      by (rewrite cross_y_rotate, cross_y_swap, <- cross_y_rotate; lia).
  assert (cyc (next i) x y \/ cyc (next i) y x) as [Hord | Hord]
      by (unfold cyc in *; lia).
  - assert (0 <= cr (next i) x y)%Z as Hxy by now apply cyc_cross.
    pose proof (cross_y_over_w (v (prev i)) (v i) (v (next i)) (v x) (v y)) as Hid.
    rewrite Hmid in Hid.
    rewrite (cross_y_rotate (v x) (v i) (v (next i))) in Hid.
    rewrite (cross_y_swap (v (next i)) (v (prev i)) (v y)) in Hid.
    nia.
  - assert (0 <= cr y x (prev i))%Z as Hyx'
        by (apply cyc_cross; auto; unfold cyc in *; lia).
    pose proof (cross_y_over_u (v (prev i)) (v i) (v (next i)) (v x) (v y)) as Hid.
    rewrite Hmid in Hid.
    rewrite (cross_y_rotate (v (prev i)) (v i) (v x)) in Hid.
    rewrite (cross_y_rotate (v i) (v x) (v (prev i))) in Hid.
    rewrite (cross_y_flip (v y) (v (next i)) (v (prev i))) in Hid.
    nia.
Qed.

(** In that case the next vertex is an ear. *)
Lemma next_is_ear (i x : nat) :
  In i remaining -> (0 < cr (prev i) i (next i))%Z ->
  In x remaining -> x <> prev i -> x <> i -> x <> next i ->
  cr (prev i) (next i) x = 0%Z ->
  is_valid_ear vertices remaining (next i) = true.
Proof.
  intros Hi Hleft Hx Hxu Hxi Hxw Hon.
  pose proof (chord_line i x Hi Hleft Hx Hxu Hxi Hxw Hon) as Hline.
  destruct (corner i Hi) as (Hu & Hw & Hui & Hwi & Huw & Hback & Hcyc & _).
  destruct (corner (next i) Hw)
    as (_ & Hw' & _ & Hw'w & Hiw' & _ & Hcyc' & Hothers).
  rewrite Hback in *.
  pose proof (Hbound _ Hi) as Bi. pose proof (Hbound _ Hu) as Bu.
  pose proof (Hbound _ Hw) as Bw. pose proof (Hbound _ Hw') as Bw'.
  assert (0 < cr i (next i) (next (next i)))%Z as Hleft'.
  { assert (0 <= cr i (next i) (next (next i)))%Z by now apply cyc_cross.
    destruct (Z.eq_dec (cr i (next i) (next (next i))) 0) as [E|]; [|lia].
    exfalso. apply (places_differ (next (next i)) (next i) Hw'w Bw' Bw).
    apply (two_lines (v i) (v (next i)) (v (prev i))).
    - rewrite <- cross_y_rotate. lia.
    - now rewrite cross_y_rotate.
    - rewrite cross_y_swap, Hline by auto. reflexivity. }
  apply ear_sufficient; [assumption | now rewrite Hback |].
  rewrite Hback. intros y Hy Hyi Hyw Hyw'.
  destruct (Hothers y Hy Hyi Hyw Hyw') as (_ & _ & Y3).
  pose proof (Hbound _ Hy) as By.
  assert (0 <= cr i (next (next i)) y)%Z by now apply cyc_cross.
  destruct (Z.eq_dec (cr i (next (next i)) y) 0) as [E|]; [|lia].
  exfalso. apply (places_differ y (next (next i)) Hyw' By Bw').
  apply (two_lines (v i) (v (next (next i))) (v (next i))).
  - rewrite cross_y_rotate, cross_y_swap, <- cross_y_rotate. lia.
  - now rewrite cross_y_rotate.
  - apply (line_triple (v (prev i)) (v (next i))).
    + now apply places_differ.
    + apply Hline; auto.
    + apply cross_y_twice.
    + apply Hline; auto.
Qed.

(** Progress: a weakly convex ring with area has an ear. *)
Lemma some_ear :
  has_area vertices remaining ->
  exists i, In i remaining /\ is_valid_ear vertices remaining i = true.
Proof.
  intros Harea. destruct (strict_corner Harea) as (i & Hi & Hleft).
  destruct (corner i Hi) as (Hu & Hw & _ & _ & _ & _ & _ & Hothers).
  destruct (all_or_some
              (fun x => x <> prev i -> x <> i -> x <> next i ->
                        (0 < cr (prev i) (next i) x)%Z)
              (fun x => x <> prev i /\ x <> i /\ x <> next i /\
                        cr (prev i) (next i) x = 0%Z)
              remaining) as [Hall | (x & Hx & Hxu & Hxi & Hxw & Hon)].
  - intros x Hx.
    destruct (Nat.eq_dec x (prev i)); [left; contradiction|].
    destruct (Nat.eq_dec x i); [left; contradiction|].
    destruct (Nat.eq_dec x (next i)); [left; contradiction|].
    assert (0 <= cr (prev i) (next i) x)%Z
      by (apply cyc_cross; auto; now apply Hothers).
    destruct (Z.eq_dec (cr (prev i) (next i) x) 0); [right; auto | left; lia].
  - exists i. split; [assumption|]. now apply ear_sufficient.
  - exists (next i). split; [assumption|]. now apply (next_is_ear i x).
Qed.

(** Preservation: cutting an ear leaves a ring with area. *)
Lemma ear_keeps_area (i : nat) :
  In i remaining -> is_valid_ear vertices remaining i = true ->
  has_area vertices (list_remove i remaining).
Proof.
  intros Hi Hear.
  destruct (ear_necessary i Hi Hear) as [_ Hchord].
  destruct (corner i Hi) as (Hu & Hw & Hui & Hwi & _).
  destruct (fourth_vertex remaining (prev i) i (next i) Hinc Hsize)
    as (x & Hx & Hxu & Hxi & Hxw).
  exists (prev i), (next i), x.
  repeat split; try (apply list_remove_In; assumption).
  pose proof (Hchord x Hx Hxu Hxi Hxw). lia.
Qed.

End Ring.

(** The loop on a weakly convex ring with area runs until three vertices
    are left, adding one triangle per removed vertex. *)
Lemma weakly_convex_loop (d : nat) :
  forall remaining indices,
    increasing remaining ->
    (forall x, In x remaining -> x < n) ->
    has_area vertices remaining ->
    length remaining = d + 3 ->
    exists remaining' indices',
      ear_loop vertices (length remaining) remaining indices = (remaining', indices') /\
      length remaining' = 3 /\
      length indices' = length indices + 3 * d.
Proof.
  induction d as [|d IH]; intros remaining indices Hinc Hbound Harea Hlen;
    rewrite ear_loop_unfold, Hlen.
  - exists remaining, indices. simpl. repeat split; lia.
  - replace (3 <? S d + 3) with true by (symmetry; apply Nat.ltb_lt; lia).
    destruct (some_ear remaining Hinc Hbound ltac:(lia) Harea) as (i & Hi & Hear).
    destruct (find_some_ex _ _ _ Hi Hear) as (y & Hfind). rewrite Hfind.
    apply find_some in Hfind as [Hy Hyear].
    pose proof (list_remove_length y remaining Hy) as Hrem.
    destruct (IH (list_remove y remaining)
                 (indices ++ [prev_of remaining y; y; next_of remaining y]))
      as (remaining' & indices' & Hrun & H3 & Hcount).
    + now apply increasing_remove.
    + intros x Hx. apply Hbound. now apply (list_remove_incl y).
    + apply ear_keeps_area; auto; lia.
    + lia.
    + exists remaining', indices'. rewrite length_app in Hcount. simpl in Hcount.
      repeat split; [assumption | assumption | lia].
Qed.

End WeaklyConvex.

(** ** Exact comparisons *)

Lemma tests_exactb_spec (vertices : list (Vec3 float)) :
  tests_exactb vertices = true -> tests_exact vertices.
Proof.
  unfold tests_exactb. intros Hb. apply andb_true_iff in Hb as [Hfin Hsigns]. split.
  - apply Forall_forall. intros p Hp.
    rewrite forallb_forall in Hfin. specialize (Hfin p Hp).
    apply andb_true_iff in Hfin as [Hfin Hz]. apply andb_true_iff in Hfin as [Hx Hy].
    unfold finiteb in *.
    apply andb_true_iff in Hx, Hy, Hz. unfold finite_point, finite. tauto.
  - intros a b c Ha Hb Hc.
    rewrite forallb_forall in Hsigns.
    pose proof (Hsigns _ (nth_In vertices vec_zero Ha)) as H1.
    rewrite forallb_forall in H1.
    pose proof (H1 _ (nth_In vertices vec_zero Hb)) as H2.
    rewrite forallb_forall in H2.
    pose proof (H2 _ (nth_In vertices vec_zero Hc)) as H3.
    unfold signs_exactb in H3.
    apply andb_true_iff in H3 as [H3 E3]. apply andb_true_iff in H3 as [E1 E2].
    apply eqb_prop in E1, E2, E3. now repeat split.
Qed.

Lemma exact_point_zero : exact_point vec_zero = vec_zero.
Proof. reflexivity. Qed.

Lemma nth_exact_ring (vertices : list (Vec3 float)) (j : nat) :
  nth j (exact_ring vertices) vec_zero = exact_point (nth j vertices vec_zero).
Proof. unfold exact_ring. rewrite <- exact_point_zero. apply map_nth. Qed.

Lemma forallb_ext_in {A} (f g : A -> bool) (l : list A) :
  (forall x, In x l -> f x = g x) -> forallb f l = forallb g l.
Proof.
  induction l as [|x l IH]; intros Hfg; [reflexivity|]. simpl.
  rewrite (Hfg x) by now left. rewrite IH; [reflexivity|].
  intros y Hy. apply Hfg. now right.
Qed.

Lemma find_ext_in {A} (f g : A -> bool) (l : list A) :
  (forall x, In x l -> f x = g x) -> find f l = find g l.
Proof.
  induction l as [|x l IH]; intros Hfg; [reflexivity|]. simpl.
  rewrite (Hfg x) by now left. rewrite IH; [reflexivity|].
  intros y Hy. apply Hfg. now right.
Qed.

Section ExactTests.
Variable vertices : list (Vec3 float).
Hypothesis Hexact : tests_exact vertices.

Lemma point_in_triangle_exact (j a b c : nat) :
  j < length vertices -> a < length vertices -> b < length vertices ->
  c < length vertices ->
  point_in_triangle (nth j vertices vec_zero) (nth a vertices vec_zero)
                    (nth b vertices vec_zero) (nth c vertices vec_zero)
  = point_in_triangle (nth j (exact_ring vertices) vec_zero)
                      (nth a (exact_ring vertices) vec_zero)
                      (nth b (exact_ring vertices) vec_zero)
                      (nth c (exact_ring vertices) vec_zero).
Proof.
  intros Hj Ha Hb Hc. destruct Hexact as [_ Hsigns].
  destruct (Hsigns j a b Hj Ha Hb) as (_ & N1 & P1).
  destruct (Hsigns j b c Hj Hb Hc) as (_ & N2 & P2).
  destruct (Hsigns j c a Hj Hc Ha) as (_ & N3 & P3).
  rewrite !nth_exact_ring. unfold point_in_triangle.
  change (@s_ltb float Scalar_float) with PrimFloat.ltb.
  change (@s_zero float Scalar_float) with 0%float.
  change (@s_ltb Z Scalar_Z) with Z.ltb.
  change (@s_zero Z Scalar_Z) with 0%Z.
  cbv zeta. now rewrite N1, N2, N3, P1, P2, P3.
Qed.

(** With exact comparisons the ear test on doubles is the ear test on the
    exact coordinates. *)
Lemma is_valid_ear_exact (remaining : list nat) (i : nat) :
  (forall x, In x remaining -> x < length vertices) ->
  In i remaining ->
  is_valid_ear vertices remaining i = is_valid_ear (exact_ring vertices) remaining i.
Proof.
  intros Hrange Hi. unfold is_valid_ear.
  destruct (length remaining <? 3); [reflexivity|].
  assert (remaining <> []) as Hne by (destruct remaining; [contradiction | congruence]).
  pose proof (Hrange _ (prev_of_In remaining i Hne)) as Hp.
  pose proof (Hrange _ (next_of_In remaining i Hne)) as Hn.
  pose proof (Hrange _ Hi) as Hi'.
  destruct Hexact as [_ Hsigns].
  destruct (Hsigns _ _ _ Hp Hi' Hn) as (Hcross & _ & _).
  rewrite !nth_exact_ring.
  change (@s_leb float Scalar_float) with PrimFloat.leb.
  change (@s_zero float Scalar_float) with 0%float.
  change (@s_leb Z Scalar_Z) with Z.leb.
  change (@s_zero Z Scalar_Z) with 0%Z.
  rewrite Hcross.
  destruct (cross_y _ _ _ <=? 0)%Z; [reflexivity|].
  apply forallb_ext_in. intros j Hj.
  destruct (Nat.eqb j (prev_of remaining i) || Nat.eqb j i || Nat.eqb j (next_of remaining i));
    [reflexivity|].
  rewrite <- !nth_exact_ring. f_equal. apply point_in_triangle_exact; auto.
Qed.

Lemma ear_loop_exact (fuel : nat) :
  forall remaining indices,
    (forall x, In x remaining -> x < length vertices) ->
    ear_loop vertices fuel remaining indices
    = ear_loop (exact_ring vertices) fuel remaining indices.
Proof.
  induction fuel as [|fuel IH]; intros remaining indices Hrange; [reflexivity|].
  simpl. destruct (3 <? length remaining); [|reflexivity].
  rewrite (find_ext_in (is_valid_ear vertices remaining)
                       (is_valid_ear (exact_ring vertices) remaining))
    by (intros x Hx; now apply is_valid_ear_exact).
  destruct (find _ remaining) as [i|]; [|reflexivity].
  apply IH. intros x Hx. apply Hrange. now apply (list_remove_incl i).
Qed.

Lemma ear_clipping_exact : ear_clipping vertices = ear_clipping (exact_ring vertices).
Proof.
  unfold ear_clipping, exact_ring. rewrite length_map.
  apply ear_loop_exact. intros x Hx. apply in_seq in Hx. lia.
Qed.

End ExactTests.

(** ** The triangulator on doubles *)

Lemma exact_ring_length (vertices : list (Vec3 float)) :
  length (exact_ring vertices) = length vertices.
Proof. apply length_map. Qed.

(** C2 (amended).  A ring of doubles whose working vertices are all on one
    line: with exactly 3 vertices the loop does not run and the three
    indices are emitted as the final triangle; with 4 vertices or more the
    result is the empty list, provided the comparisons are exact on the
    ring. *)
Theorem collinear_ring (points : list (Vec3 float)) :
  collinear (exact_ring (working_vertices points)) ->
  (length (working_vertices points) = 3 -> triangulate_polygon points = [0; 1; 2]) /\
  (4 <= length (working_vertices points) -> tests_exact (working_vertices points) ->
   triangulate_polygon points = []).
Proof.
  intros Hcol. split; [apply three_vertices|].
  intros H4 Hexact. rewrite triangulate_polygon_run by lia.
  rewrite (ear_clipping_exact _ Hexact).
  rewrite no_left_turn_no_triangle; [|intros a b c Ha Hb Hc|rewrite exact_ring_length; lia].
  - unfold final_indices. rewrite length_seq, exact_ring_length.
    destruct (Nat.eqb_spec (length (working_vertices points)) 3); [lia | reflexivity].
  - change (Z.leb (cross_y (nth a (exact_ring (working_vertices points)) vec_zero)
                           (nth b (exact_ring (working_vertices points)) vec_zero)
                           (nth c (exact_ring (working_vertices points)) vec_zero)) 0 = true).
    rewrite (collinear_cross_zero (exact_ring (working_vertices points)));
      auto using nth_In.
Qed.

Lemma collinear_ring_witness : triangulate_polygon collinear_four_f = [].
Proof.
  apply (collinear_ring collinear_four_f).
  - exists 0%Z, 1%Z, 0%Z. split; [now right|]. vm_compute. repeat constructor.
  - vm_compute. lia.
  - apply tests_exactb_spec. vm_compute. reflexivity.
Defined.

(** C2, as stated, fails twice.  Three collinear points come back as the
    triangle [0, 1, 2]; and four points of the line z = -3 x, far apart in
    magnitude, come back as two triangles, because the differences and
    products of [is_valid_ear] are rounded. *)
Lemma collinear_rings_emitted :
  (collinear (exact_ring (working_vertices collinear_three_f)) /\
   triangulate_polygon collinear_three_f = [0; 1; 2]) /\
  (collinear (exact_ring (working_vertices collinear_far_f)) /\
   length (working_vertices collinear_far_f) = 4 /\
   triangulate_polygon collinear_far_f = [2; 3; 0; 0; 1; 2]).
Proof.
  split; split.
  - exists 0%Z, 1%Z, 0%Z. split; [now right|]. vm_compute. repeat constructor.
  - vm_compute. reflexivity.
  - exists 3%Z, 1%Z, 0%Z. split; [now right|]. vm_compute. repeat constructor.
  - split; vm_compute; reflexivity.
Qed.

(** C3 (amended).  Every triangle the ear-clipping loop emits passed the
    orientation test on doubles, [cross[1] <= 0] being false; where the
    comparisons are exact on the ring, its signed area in the X/Z plane is
    strictly positive (counter-clockwise as seen from +Y).  The result is
    these triangles followed, when exactly 3 vertices remain, by the
    remaining three indices, which are appended without an orientation
    test. *)
Theorem ear_triangles_positive (points : list (Vec3 float)) :
  Forall (ear_test (working_vertices points))
         (triangles (snd (ear_clipping (working_vertices points)))) /\
  (tests_exact (working_vertices points) ->
   Forall (positive_area (exact_ring (working_vertices points)))
          (triangles (snd (ear_clipping (working_vertices points))))) /\
  (3 <= length (working_vertices points) ->
   triangulate_polygon points
   = snd (ear_clipping (working_vertices points))
     ++ (if length (fst (ear_clipping (working_vertices points))) =? 3
         then fst (ear_clipping (working_vertices points)) else [])).
Proof.
  split; [|split].
  - unfold ear_clipping.
    destruct (ear_loop_ears (working_vertices points)
                (length (working_vertices points))
                (seq 0 (length (working_vertices points)))) as (ears & -> & Hall).
    now rewrite triangles_flatten.
  - intros Hexact. rewrite (ear_clipping_exact _ Hexact). unfold ear_clipping.
    destruct (ear_loop_ears (exact_ring (working_vertices points))
                (length (exact_ring (working_vertices points)))
                (seq 0 (length (exact_ring (working_vertices points)))))
      as (ears & -> & Hall).
    rewrite triangles_flatten.
    eapply Forall_impl; [|exact Hall]. intros t. apply ear_test_Z.
  - intros H3. rewrite triangulate_polygon_run by assumption.
    unfold final_indices.
    destruct (ear_clipping (working_vertices points)) as [remaining indices]. simpl.
    destruct (length remaining =? 3); [reflexivity | now rewrite app_nil_r].
Qed.

Lemma unit_square_f_exact : tests_exact (working_vertices unit_square_f).
Proof. apply tests_exactb_spec. vm_compute. reflexivity. Qed.

Lemma ear_triangles_positive_witness :
  Forall (positive_area (exact_ring (working_vertices unit_square_f)))
         (triangles (snd (ear_clipping (working_vertices unit_square_f)))).
Proof.
  apply (ear_triangles_positive unit_square_f). exact unit_square_f_exact.
Defined.

(** C3, as stated, fails twice.  A clockwise triangle comes back as the
    single triangle [0, 1, 2], whose signed area is negative; and on four
    points of one line, far apart in magnitude, the loop itself emits the
    triangle (2, 3, 0), whose signed area is zero, the rounded [cross[1]]
    being positive. *)
Lemma unchecked_triangles :
  (triangulate_polygon clockwise_triangle_f = [0; 1; 2] /\
   ~ positive_area (exact_ring (working_vertices clockwise_triangle_f)) (0, 1, 2)) /\
  (snd (ear_clipping (working_vertices collinear_far_f)) = [2; 3; 0] /\
   ear_test (working_vertices collinear_far_f) (2, 3, 0) /\
   ~ positive_area (exact_ring (working_vertices collinear_far_f)) (2, 3, 0)).
Proof.
  split; split.
  - vm_compute. reflexivity.
  - vm_compute. discriminate.
  - vm_compute. reflexivity.
  - split; [vm_compute; reflexivity | vm_compute; discriminate].
Qed.

(** C5 (amended).  A ring of doubles whose working vertices are n distinct
    vertices of a convex polygon, listed counter-clockwise as seen from +Y
    (n >= 3, vertices inside an edge allowed), and on which the
    comparisons are exact, is cut into exactly n - 2 triangles: the index
    list has length 3 (n - 2). *)
Theorem convex_triangle_count (points : list (Vec3 float)) :
  weakly_convex_ccw (exact_ring (working_vertices points)) ->
  tests_exact (working_vertices points) ->
  length (triangulate_polygon points) = 3 * (length (working_vertices points) - 2).
Proof.
  intros (Hturn & Hplaces & (i & j & k & Hij & Hjk & Hk & Hleft)) Hexact.
  rewrite exact_ring_length in Hk.
  rewrite triangulate_polygon_run by lia.
  rewrite (ear_clipping_exact _ Hexact).
  set (vertices := exact_ring (working_vertices points)) in *.
  assert (length vertices = length (working_vertices points)) as Hlen
      by apply exact_ring_length.
  destruct (weakly_convex_loop vertices Hturn Hplaces (length vertices - 3)
              (seq 0 (length vertices)) [])
    as (remaining' & indices' & Hrun & H3 & Hcount).
  - apply increasing_seq.
  - intros x Hx. apply in_seq in Hx. lia.
  - exists i, j, k. rewrite !in_seq.
    pose proof (proj1 (left_turn_cross_y _ _ _) Hleft) as Hpos.
    repeat split; lia.
  - rewrite length_seq. lia.
  - rewrite length_seq in Hrun. unfold ear_clipping. rewrite Hrun.
    unfold final_indices. rewrite H3. simpl Nat.eqb. cbv iota.
    rewrite length_app, Hcount, H3. simpl. lia.
Qed.

Ltac ring_indices i j k :=
  assert (i = 0 \/ i = 1) as [-> | ->] by lia;
  (assert (j = 1 \/ j = 2) as [-> | ->] by lia);
  (assert (k = 2 \/ k = 3) as [-> | ->] by lia);
  try lia.

Ltac ring_pairs i j :=
  assert (i = 0 \/ i = 1 \/ i = 2) as [-> | [-> | ->]] by lia;
  (assert (j = 1 \/ j = 2 \/ j = 3) as [-> | [-> | ->]] by lia);
  try lia.

Lemma midpoint_triangle_f_convex :
  weakly_convex_ccw (exact_ring (working_vertices midpoint_triangle_f)).
Proof.
  split; [|split].
  - intros i j k Hij Hjk Hk. vm_compute in Hk.
    ring_indices i j k; vm_compute; discriminate.
  - intros i j Hij Hj [Hx Hz]. vm_compute in Hj.
    ring_pairs i j; vm_compute in Hx, Hz; discriminate.
  - exists 0, 1, 2. split; [lia|]. split; [lia|]. split; [vm_compute; lia|].
    vm_compute. reflexivity.
Qed.

Lemma convex_triangle_count_witness :
  length (triangulate_polygon midpoint_triangle_f) = 3 * (4 - 2).
Proof.
  apply (convex_triangle_count midpoint_triangle_f).
  - exact midpoint_triangle_f_convex.
  - apply tests_exactb_spec. vm_compute. reflexivity.
Defined.

(** C5, as stated, fails on doubles: a counter-clockwise parallelogram of
    area 1 whose sides are about 2^27.5 long is strictly convex, yet the
    rounded [cross[1]] is 0 at each of its four vertices and the
    triangulator returns the empty list. *)
Lemma thin_parallelogram_untriangulated :
  convex_ccw (exact_ring (working_vertices thin_parallelogram_f)) /\
  weakly_convex_ccw (exact_ring (working_vertices thin_parallelogram_f)) /\
  length (working_vertices thin_parallelogram_f) = 4 /\
  triangulate_polygon thin_parallelogram_f = [].
Proof.
  assert (convex_ccw (exact_ring (working_vertices thin_parallelogram_f))) as Hstrict.
  { intros i j k Hij Hjk Hk. vm_compute in Hk.
    ring_indices i j k; vm_compute; reflexivity. }
  split; [exact Hstrict|]. split; [|split; vm_compute; reflexivity].
  split; [|split].
  - intros i j k Hij Hjk Hk.
    pose proof (proj1 (left_turn_cross_y _ _ _) (Hstrict i j k Hij Hjk Hk)) as Hleft.
    lia.
  - intros i j Hij Hj [Hx Hz]. vm_compute in Hj.
    ring_pairs i j; vm_compute in Hx, Hz; discriminate.
  - exists 0, 1, 2. split; [lia|]. split; [lia|]. split; [vm_compute; lia|].
    vm_compute. reflexivity.
Qed.

(** X2.  The triangles of a ring of doubles in strictly convex position,
    counter-clockwise, on which the comparisons are exact: the loop cuts
    vertex 0, then 1, and so on, each against the last vertex, and the
    final triangle is made of the last three vertices. *)
Theorem strictly_convex_fan (points : list (Vec3 float)) :
  convex_ccw (exact_ring (working_vertices points)) ->
  tests_exact (working_vertices points) ->
  3 <= length (working_vertices points) ->
  triangles (triangulate_polygon points)
  = map (fun j => (length (working_vertices points) - 1, j, S j))
        (seq 0 (length (working_vertices points) - 3))
    ++ [(length (working_vertices points) - 3,
         length (working_vertices points) - 2,
         length (working_vertices points) - 1)].
Proof.
  intros Hconvex Hexact H3.
  rewrite triangulate_polygon_run by assumption.
  rewrite (ear_clipping_exact _ Hexact).
  rewrite convex_ear_clipping by (rewrite ?exact_ring_length; assumption).
  rewrite exact_ring_length.
  unfold final_indices. rewrite length_seq. simpl Nat.eqb. cbv iota.
  set (n := length (working_vertices points)) in *.
  replace (flat_map (fun j => [n - 1; j; S j]) (seq 0 (n - 3)))
    with (flatten (map (fun j => (n - 1, j, S j)) (seq 0 (n - 3))))
    by (unfold flatten; rewrite flat_map_concat_map, map_map, <- flat_map_concat_map;
        reflexivity).
  rewrite triangles_app_flatten. f_equal.
  simpl. repeat f_equal; lia.
Qed.

Lemma unit_square_f_convex : convex_ccw (exact_ring (working_vertices unit_square_f)).
Proof.
  intros i j k Hij Hjk Hk. vm_compute in Hk.
  ring_indices i j k; vm_compute; reflexivity.
Qed.

Lemma strictly_convex_fan_witness :
  triangles (triangulate_polygon unit_square_f) = [(3, 0, 1); (1, 2, 3)].
Proof.
  apply (strictly_convex_fan unit_square_f).
  - exact unit_square_f_convex.
  - exact unit_square_f_exact.
  - vm_compute. lia.
Defined.

(** ** Bounds and documents *)

Ltac key_order :=
  repeat match goal with
         | |- context [sf_key ?f] =>
             let c := fresh "c" in let e := fresh "e" in let m := fresh "m" in
             destruct (sf_key f) as [[c e] m]
         | H : context [sf_key ?f] |- _ =>
             let c := fresh "c" in let e := fresh "e" in let m := fresh "m" in
             destruct (sf_key f) as [[c e] m]
         end; simpl in *; lia.

Lemma axis_step_numbers (s : float * float) (x : float) :
  axis_numbers s -> axis_numbers (axis_step s x).
Proof.
  destruct s as [mn mx]. unfold axis_numbers, axis_step, py_min, py_max. simpl.
  intros [Hmn Hmx]. split.
  - destruct (x <? mn)%float eqn:E; [|assumption]. now apply ltb_key in E.
  - destruct (mx <? x)%float eqn:E; [|assumption]. now apply ltb_key in E.
Qed.

Lemma axis_step_covers_new (s : float * float) (x : float) :
  axis_numbers s -> is_number x -> axis_covers (axis_step s x) x.
Proof.
  destruct s as [mn mx]. unfold axis_numbers, axis_covers, axis_step, py_min, py_max. simpl.
  intros [Hmn Hmx] Hx. split.
  - destruct (x <? mn)%float eqn:E; [now apply leb_refl_number|].
    apply leb_key. repeat split; auto. now apply ltb_false_key.
  - destruct (mx <? x)%float eqn:E; [now apply leb_refl_number|].
    apply leb_key. repeat split; auto. now apply ltb_false_key.
Qed.

Lemma axis_step_covers_old (s : float * float) (x y : float) :
  axis_covers s y -> axis_covers (axis_step s x) y.
Proof.
  destruct s as [mn mx]. unfold axis_covers, axis_step, py_min, py_max. simpl.
  intros [Hlo Hhi].
  apply leb_key in Hlo as (Hmn & Hy & Hlo). apply leb_key in Hhi as (_ & Hmx & Hhi).
  split.
  - destruct (x <? mn)%float eqn:E; apply leb_key; repeat split; auto.
    + now apply ltb_key in E.
    + apply ltb_key in E as (_ & _ & E). key_order.
  - destruct (mx <? x)%float eqn:E; apply leb_key; repeat split; auto.
    + now apply ltb_key in E.
    + apply ltb_key in E as (_ & _ & E). key_order.
Qed.

Lemma axis_fold_covers_from (xs : list float) (y : float) :
  forall s, axis_covers s y -> axis_covers (fold_left axis_step xs s) y.
Proof.
  induction xs as [|x xs IH]; intros s Hs; [exact Hs|].
  simpl. now apply IH, axis_step_covers_old.
Qed.

Lemma axis_fold_contains_from (xs : list float) (y : float) :
  In y xs -> is_number y ->
  forall s, axis_numbers s -> axis_covers (fold_left axis_step xs s) y.
Proof.
  intros Hin Hy. induction xs as [|x xs IH]; [contradiction|].
  intros s Hs. simpl. destruct Hin as [->|Hin].
  - now apply axis_fold_covers_from, axis_step_covers_new.
  - apply IH; [assumption | now apply axis_step_numbers].
Qed.

(** The running minimum and maximum enclose every number they were fed. *)
Lemma axis_fold_contains (xs : list float) (y : float) :
  In y xs -> is_number y -> axis_covers (axis_fold xs) y.
Proof.
  intros Hin Hy. apply axis_fold_contains_from; auto. split; reflexivity.
Qed.

(** X8.  After a successful load that leaves bounds, the bounds enclose every
    coordinate of every feature: on each axis, a coordinate that is a
    number lies between the stored minimum and maximum. *)
Theorem bounds_contain_coordinates (self : GeoJSONData) (file : result json) (b : GeoBounds) :
  snd (load_from_file self file) = true ->
  bounds (fst (load_from_file self file)) = Some b ->
  exists l ps,
    py_iter (features (fst (load_from_file self file))) = Ok l /\
    coordinate_pairs l = Ok ps /\
    forall p, In p ps ->
      (is_number (fst p) ->
         (fst (b_min b) <=? fst p)%float = true /\ (fst p <=? fst (b_max b))%float = true) /\
      (is_number (snd p) ->
         (snd (b_min b) <=? snd p)%float = true /\ (snd p <=? snd (b_max b))%float = true).
Proof.
  intros Hok Hb. pose proof (load_from_file_bounds self file Hok) as Hc.
  rewrite Hb in Hc. apply calculate_bounds_axes in Hc as (l & ps & Hl & Hps & Hx & Hy).
  exists l, ps. split; [assumption|]. split; [assumption|].
  intros p Hp. split; intros Hn.
  - change (axis_covers (fst (b_min b), fst (b_max b)) (fst p)). rewrite Hx.
    apply axis_fold_contains; [now apply in_map | assumption].
  - change (axis_covers (snd (b_min b), snd (b_max b)) (snd p)). rewrite Hy.
    apply axis_fold_contains; [now apply in_map | assumption].
Qed.

Lemma bounds_contain_coordinates_witness :
  (fst (b_min (mkBounds (0, 0) (1, 1))%float) <=? 1)%float = true /\
  (1 <=? fst (b_max (mkBounds (0, 0) (1, 1))%float))%float = true.
Proof.
  destruct (bounds_contain_coordinates init_data (Ok square_feature)
              (mkBounds (0, 0) (1, 1))%float eq_refl eq_refl)
    as (l & ps & Hl & Hps & Hall).
  simpl in Hl. injection Hl as <-.
  vm_compute in Hps. injection Hps as <-.
  apply (Hall (1, 0)%float); [right; now left | reflexivity].
Defined.

(** X9.  A document that is not an object whose ["type"] is "FeatureCollection"
    or "Feature" -- a bare geometry, a list, a number -- is refused:
    [load_from_file] returns [False] and leaves the features and the bounds
    of an earlier load as they were. *)
Theorem unsupported_document_refused (self : GeoJSONData) (data : json) :
  (forall m, data = JObj m ->
     assoc "type" m <> Some (JStr "FeatureCollection") /\
     assoc "type" m <> Some (JStr "Feature")) ->
  load_from_file self (Ok data) = (self, false).
Proof.
  intros Htype. unfold load_from_file, load_data.
  destruct data as [| | | | |m]; try reflexivity.
  destruct (Htype m eq_refl) as [H1 H2]. simpl.
  destruct (assoc "type" m) as [t|] eqn:Ht; [|reflexivity].
  assert (valid_type t = false) as ->; [|reflexivity].
  unfold valid_type, py_eq_str. destruct t as [| | |s| |]; try reflexivity.
  destruct (String.eqb_spec s "FeatureCollection") as [->|]; [congruence|].
  destruct (String.eqb_spec s "Feature") as [->|]; [congruence|]. reflexivity.
Qed.

Lemma unsupported_document_refused_witness :
  load_from_file init_data
    (Ok (JObj [("type", JStr "Polygon"); ("coordinates", JArr [])]%string))
  = (init_data, false).
Proof.
  apply unsupported_document_refused.
  intros m Hm. injection Hm as <-. split; discriminate.
Defined.

(** X10.  A FeatureCollection without the key ["features"], or with an empty
    list under it, loads successfully: the features are the empty list and
    the bounds are [None], whatever an earlier load had left. *)
Theorem collection_without_features (self : GeoJSONData) (m : list (string * json)) :
  assoc "type" m = Some (JStr "FeatureCollection") ->
  assoc "features" m = None \/ assoc "features" m = Some (JArr []) ->
  load_from_file self (Ok (JObj m)) = (mkData (JArr []) None, true).
Proof.
  intros Ht Hf. unfold load_from_file, load_data. simpl. rewrite Ht. simpl.
  destruct Hf as [-> | ->]; reflexivity.
Qed.

Lemma collection_without_features_witness :
  load_from_file (mkData (JArr [square_feature]) (Some (mkBounds (0, 0) (1, 1))%float))
    (Ok (JObj [("type", JStr "FeatureCollection")]%string))
  = (mkData (JArr []) None, true).
Proof.
  apply collection_without_features; [reflexivity | now left].
Defined.

(** X11.  A failed load is not undone: when the bounds computation of a
    FeatureCollection raises, [load_from_file] returns [False] with the new
    feature list already stored and the bounds of the earlier load kept. *)
Theorem failed_load_keeps_features (self : GeoJSONData) (data : json) (fs : list json) :
  feature_collection data fs ->
  snd (load_from_file self (Ok data)) = false ->
  fst (load_from_file self (Ok data)) = mkData (JArr fs) (bounds self).
Proof.
  intros Hdata. rewrite (load_collection self data fs Hdata).
  destruct (calculate_bounds (JArr fs)); [discriminate | reflexivity].
Qed.

Lemma failed_load_keeps_features_witness :
  fst (load_from_file init_data (Ok (make_collection [no_geometry_feature])))
  = mkData (JArr [no_geometry_feature]) (bounds init_data).
Proof.
  apply (failed_load_keeps_features init_data _ [no_geometry_feature]).
  - exists [("type", JStr "FeatureCollection");
            ("features", JArr [no_geometry_feature])]%string.
    repeat split; reflexivity.
  - reflexivity.
Defined.

(** ** What the emission leaves on the stage *)

Section EmissionShape.
Context `{Platform}.

Lemma mesh_of_well_formed (pts : list (Vec3 float)) :
  triangulate_polygon pts <> [] ->
  well_formed_mesh (mesh_of pts (triangulate_polygon pts)).
Proof.
  intros Hne. destruct (triangulate_polygon_mesh pts) as [[k Hk] Hrange].
  pose proof (working_vertices_length pts) as Hlen.
  assert (length (triangulate_polygon pts) / 3 = k) as Hdiv
      by (rewrite Hk, Nat.mul_comm; apply Nat.div_mul; lia).
  unfold well_formed_mesh, mesh_of.
  cbn [points_attr face_vertex_counts face_vertex_indices normals_attr].
  rewrite !repeat_length, Hdiv.
  split; [assumption|]. split; [|split; [now symmetry|split; [|reflexivity]]].
  - apply Forall_forall. intros c Hc. now apply repeat_spec in Hc.
  - eapply Forall_impl; [|exact Hrange]. cbv beta. intros; lia.
Qed.

(** What one feature does to the stage: nothing, or a prim at its index,
    with or without a (well-formed) mesh. *)
Lemma emit_feature_stage (i : nat) (feature : json) (st : stage) :
  root (fst (emit_feature i feature st)) = root st /\
  (polygons (fst (emit_feature i feature st)) = polygons st \/
   (polygons st !! i = None /\
    polygons (fst (emit_feature i feature st)) = <[i := None]> (polygons st)) \/
   exists m, well_formed_mesh m /\
     polygons (fst (emit_feature i feature st)) = <[i := Some m]> (polygons st)).
Proof.
  unfold emit_feature, mbind, lift.
  destruct (py_get feature "geometry" (JObj [])) as [geometry|]; [|simpl; auto].
  destruct (py_get geometry "type" (JStr "Unknown")) as [geo_type|]; [|simpl; auto].
  destruct (py_eq_str geo_type "Polygon").
  - destruct (py_get geometry "coordinates" (JArr [])) as [rings|]; [|simpl; auto].
    destruct (py_len rings); [|simpl; auto].
    destruct (py_index rings 0) as [outer_ring|]; [|simpl; auto].
    destruct (py_len outer_ring) as [n|]; [|simpl; auto].
    destruct (n <? 3); [simpl; auto|].
    destruct (py_iter outer_ring) as [coords|]; [|simpl; auto].
    destruct (rmap project_point coords) as [pts|]; [|simpl; auto].
    unfold define_polygon, write_mesh, mret. simpl.
    destruct (negb (length (triangulate_polygon pts) =? 0)) eqn:Hfaces; simpl.
    + split; [reflexivity|]. right. right.
      exists (mesh_of pts (triangulate_polygon pts)). split.
      * apply mesh_of_well_formed. intros E. rewrite E in Hfaces. discriminate.
      * destruct (polygons st !! i); [reflexivity|]. apply insert_insert_eq.
    + split; [reflexivity|].
      destruct (polygons st !! i) eqn:Hi; [now left | right; left; now split].
  - destruct (py_eq_str geo_type "MultiPolygon"); [|simpl; auto].
    destruct (py_get geometry "coordinates" (JArr [])) as [c|]; [|simpl; auto].
    destruct (py_len c); simpl; auto.
Qed.

Lemma emit_features_root (l : list json) :
  forall i st, root (fst (emit_features i l st)) = root st.
Proof.
  induction l as [|feature l IH]; intros i st; [reflexivity|].
  simpl. unfold mbind.
  pose proof (emit_feature_stage i feature st) as [Hroot _].
  destruct (emit_feature i feature st) as [st' [[]|e]]; simpl in *.
  - now rewrite IH.
  - assumption.
Qed.

Lemma emit_feature_meshes (i : nat) (feature : json) (st : stage) :
  meshes_well_formed st -> meshes_well_formed (fst (emit_feature i feature st)).
Proof.
  intros Hst j m.
  destruct (emit_feature_stage i feature st) as [_ [-> | [[_ ->] | (m' & Hm' & ->)]]].
  - apply Hst.
  - rewrite lookup_insert_Some. intros [[_ E] | [_ Hj]]; [discriminate | now apply (Hst j)].
  - rewrite lookup_insert_Some. intros [[_ E] | [_ Hj]]; [|now apply (Hst j)].
    injection E as <-. assumption.
Qed.

Lemma emit_features_meshes (l : list json) :
  forall i st, meshes_well_formed st -> meshes_well_formed (fst (emit_features i l st)).
Proof.
  induction l as [|feature l IH]; intros i st Hst; [exact Hst|].
  simpl. unfold mbind.
  pose proof (emit_feature_meshes i feature st Hst) as Hst'.
  destruct (emit_feature i feature st) as [st' [[]|e]]; simpl in *.
  - now apply IH.
  - assumption.
Qed.

Lemma define_root_stage (st : stage) :
  snd (define_root st) = Ok tt /\
  polygons (fst (define_root st)) = polygons st /\
  forall t, root st = Some (Some t) -> root (fst (define_root st)) = Some (Some t).
Proof.
  unfold define_root. simpl. repeat split. intros t Ht. now rewrite Ht.
Qed.

Lemma set_root_ops_stage (t : transform) (st : stage) :
  snd (set_root_ops t st) = Ok tt /\
  polygons (fst (set_root_ops t st)) = polygons st /\
  forall t0, root st = Some (Some t0) -> root (fst (set_root_ops t st)) = Some (Some t0).
Proof.
  unfold set_root_ops. destruct (root st) as [[t'|]|] eqn:Hr; simpl;
    repeat split; intros t0 Ht0; congruence.
Qed.

(** What [_create_stage_objects] does to the stage before its second pass:
    it defines the root and, when the root has no operations yet, sets
    them. *)
Lemma create_objects_stage (fs : json) (st : stage) :
  exists st0,
    polygons st0 = polygons st /\
    (forall t, root st = Some (Some t) -> root st0 = Some (Some t)) /\
    (fst (create_objects fs st) = st0 \/
     exists l, fst (create_objects fs st) = fst (emit_features 0 l st0)).
Proof.
  unfold create_objects, mbind, lift.
  destruct (py_len fs); [|exists st; simpl; auto].
  destruct (define_root_stage st) as (Hr1 & Hp1 & Ht1).
  destruct (define_root st) as [st1 r1]. simpl in Hr1, Hp1, Ht1. subst r1.
  destruct (py_iter fs) as [l|]; [|exists st1; simpl; auto].
  destruct (rfold cart_feature box_seed l) as [b|]; [|exists st1; simpl; auto].
  destruct (normalization b) as [t|]; [|exists st1; simpl; auto].
  destruct (set_root_ops_stage t st1) as (Hr2 & Hp2 & Ht2).
  destruct (set_root_ops t st1) as [st2 r2]. simpl in Hr2, Hp2, Ht2. subst r2.
  exists st2. split; [congruence|]. split; [auto|]. right. now exists l.
Qed.

(** X12.  Importing again does not move the scene: once the root Xform carries
    its translate and scale operations, [_create_stage_objects] leaves them
    as they are, whatever the features of the new document. *)
Theorem root_ops_kept (fs : json) (st : stage) (t : transform) :
  root st = Some (Some t) ->
  exists st', create_stage_objects fs (Some st) = (Some st', snd (create_objects fs st)) /\
              root st' = Some (Some t).
Proof.
  intros Hroot. unfold create_stage_objects.
  destruct (create_objects_stage fs st) as (st0 & _ & Hroot0 & Hrun).
  exists (fst (create_objects fs st)). split.
  - now destruct (create_objects fs st).
  - destruct Hrun as [-> | [l ->]]; [|rewrite emit_features_root]; auto.
Qed.

(** X13.  Every mesh on the stage after [_create_stage_objects] is well formed,
    when those that were there before are: the meshes it writes have only
    triangles, three indices per face, indices that name a point, and one
    normal per point. *)
Theorem meshes_stay_well_formed (fs : json) (st : stage) :
  meshes_well_formed st ->
  meshes_well_formed (fst (create_objects fs st)).
Proof.
  intros Hst.
  destruct (create_objects_stage fs st) as (st0 & Hpoly & _ & Hrun).
  assert (meshes_well_formed st0) as Hst0
      by (intros i m; rewrite Hpoly; apply Hst).
  destruct Hrun as [-> | [l ->]]; [assumption | now apply emit_features_meshes].
Qed.

End EmissionShape.

Section EmissionMore.
Context `{Platform}.

(** X14.  Interior rings are not read by either pass of the emission: a Polygon
    feature gives the same box and the same mesh as the feature with its
    exterior ring alone, so holes are not cut out. *)
Theorem holes_ignored (feature solid ring : json) (holes : list json) :
  polygon_feature feature (JArr (ring :: holes)) ->
  polygon_feature solid (JArr [ring]) ->
  (forall b, cart_feature b feature = cart_feature b solid) /\
  (forall i st, emit_feature i feature st = emit_feature i solid st).
Proof.
  intros (m & g & -> & Hg & Ht & Hc) (m' & g' & -> & Hg' & Ht' & Hc'). split.
  - intros b. unfold cart_feature. simpl. rewrite Hg, Hg'. simpl.
    now rewrite Ht, Hc, Ht', Hc'.
  - intros i st. unfold emit_feature, mbind, lift. simpl. rewrite Hg, Hg'. simpl.
    now rewrite Ht, Hc, Ht', Hc'.
Qed.

Lemma cart_coords_project (coords : list json) :
  forall b b', rfold cart_coord b coords = Ok b' ->
  exists pts, rmap project_point coords = Ok pts.
Proof.
  induction coords as [|coord coords IH]; intros b b' Hb; [now exists []|].
  simpl in Hb. rbind_inv Hb. unfold cart_coord in Ha. rbind_inv Ha.
  destruct (IH _ _ Hb) as [pts Hpts].
  simpl. unfold project_point at 1. rewrite Ha0. simpl.
  destruct a0 as [[x y] z]. rewrite Hpts. simpl. eauto.
Qed.

(** X15.  A Polygon feature that went through the first pass cannot make the
    second pass raise: its exterior ring was found and every coordinate of
    it was projected already. *)
Theorem polygon_second_pass_safe (feature rings : json) (b b' : cart_box)
        (i : nat) (st : stage) :
  polygon_feature feature rings ->
  cart_feature b feature = Ok b' ->
  snd (emit_feature i feature st) = Ok tt.
Proof.
  intros (m & g & -> & Hg & Ht & Hc) Hb.
  unfold cart_feature in Hb. simpl in Hb. rewrite Hg in Hb. simpl in Hb.
  rewrite Ht, Hc in Hb. simpl in Hb.
  rbind_inv Hb. rbind_inv Hb.
  destruct (cart_coords_project _ _ _ Hb) as [pts Hpts].
  unfold emit_feature, mbind, lift. simpl. rewrite Hg. simpl. rewrite Ht, Hc. simpl.
  assert (exists k, py_len rings = Ok k) as [k ->]
      by (destruct rings; try discriminate; simpl; eauto).
  rewrite Ha.
  assert (exists n, py_len a = Ok n) as [n ->]
      by (destruct a; try discriminate; simpl; eauto).
  destruct (n <? 3); [reflexivity|].
  rewrite Ha0, Hpts. simpl.
  now destruct (negb (length (triangulate_polygon pts) =? 0)).
Qed.

(** X16.  The second pass over [l1 ++ l2] from index [i] is the pass over [l1]
    and then, unless that raised, the pass over [l2] from index
    [i + len(l1)] on the stage that [l1] left; an exception in [l1] ends
    the emission with the stage as it was at that moment. *)
Theorem emit_features_app (l1 l2 : list json) :
  forall i st,
    emit_features i (l1 ++ l2) st
    = match emit_features i l1 st with
      | (st1, Ok _) => emit_features (i + length l1) l2 st1
      | (st1, Raise e) => (st1, Raise e)
      end.
Proof.
  induction l1 as [|feature l1 IH]; intros i st.
  - simpl. unfold mret. now rewrite Nat.add_0_r.
  - simpl. unfold mbind.
    destruct (emit_feature i feature st) as [st' [[]|e]]; [|reflexivity].
    rewrite IH. now replace (i + S (length l1)) with (S i + length l1) by lia.
Qed.

End EmissionMore.

Lemma holes_ignored_witness :
  cart_feature (H := identity_platform) box_seed
    (make_feature "Polygon"
       (JArr [JArr [position 0 0; position 1 0; position 1 1; position 0 0];
              JArr [position 0 0]]))
  = cart_feature (H := identity_platform) box_seed
      (make_feature "Polygon"
         (JArr [JArr [position 0 0; position 1 0; position 1 1; position 0 0]])).
Proof.
  apply (holes_ignored (H := identity_platform) _ _
           (JArr [position 0 0; position 1 0; position 1 1; position 0 0])
           [JArr [position 0 0]]).
  - do 2 eexists. repeat split; reflexivity.
  - do 2 eexists. repeat split; reflexivity.
Defined.

Lemma polygon_second_pass_safe_witness :
  snd (emit_feature (H := identity_platform) 0 square_feature empty_stage) = Ok tt.
Proof.
  apply (polygon_second_pass_safe (H := identity_platform) square_feature
           (JArr [JArr [position 0 0; position 1 0; position 1 1; position 0 1;
                        position 0 0]])
           box_seed
           (match cart_feature (H := identity_platform) box_seed square_feature with
            | Ok b => b
            | Raise _ => box_seed
            end)).
  - do 2 eexists. repeat split; reflexivity.
  - vm_compute. reflexivity.
Defined.

Lemma root_ops_kept_witness :
  exists st',
    create_stage_objects (H := identity_platform) (JArr [square_feature])
      (Some stage_with_ops)
    = (Some st',
       snd (create_objects (H := identity_platform) (JArr [square_feature]) stage_with_ops)) /\
    root st' = root stage_with_ops.
Proof.
  apply (root_ops_kept (H := identity_platform)). reflexivity.
Defined.

Lemma meshes_stay_well_formed_witness :
  meshes_well_formed
    (fst (create_objects (H := identity_platform) (JArr [square_feature]) empty_stage)).
Proof.
  apply (meshes_stay_well_formed (H := identity_platform)).
  intros i m Hm. unfold empty_stage in Hm. simpl in Hm.
  rewrite lookup_empty in Hm. discriminate.
Defined.

(** ** The window *)

(** A feature the bounds computation went through has a geometry object
    with a type. *)
Lemma loaded_feature_shape (feature : json) (coords : list json) :
  get_feature_coordinates feature = Ok coords ->
  exists m g t, feature = JObj m /\ assoc "geometry" m = Some (JObj g) /\
                assoc "type" g = Some t.
Proof.
  unfold get_feature_coordinates. intros Hc. rbind_inv Hc. rbind_inv Hc.
  destruct feature as [| | | | |m]; try discriminate. simpl in Ha.
  destruct (assoc "geometry" m) as [g|] eqn:Hg; [|discriminate]. injection Ha as <-.
  destruct g as [| | | | |g]; try discriminate. simpl in Ha0.
  destruct (assoc "type" g) as [t|] eqn:Ht; [|discriminate].
  now exists m, g, t.
Qed.

Lemma type_step_loaded (feature : json) (coords types : list json) :
  get_feature_coordinates feature = Ok coords ->
  exists t, geometry_type_of feature = Ok t /\
            type_step types feature
            = if hashable t then Ok (types ++ [t]) else Raise TypeError.
Proof.
  intros Hc. apply loaded_feature_shape in Hc as (m & g & t & -> & Hg & Ht).
  exists t. unfold geometry_type_of, type_step. simpl. rewrite Hg. simpl. rewrite Ht.
  split; [reflexivity|].
  destruct g as [|kv g]; [discriminate|]. reflexivity.
Qed.

Lemma types_loop_loaded (l : list json) :
  forall s s', rfold bounds_feature s l = Ok s' ->
  exists ts, rmap geometry_type_of l = Ok ts /\
    forall types, rfold type_step types l
                  = if forallb hashable ts then Ok (types ++ ts) else Raise TypeError.
Proof.
  induction l as [|feature l IH]; intros s s' Hs.
  - exists []. split; [reflexivity|]. intros types. simpl. now rewrite app_nil_r.
  - simpl in Hs. rbind_inv Hs. unfold bounds_feature in Ha. rbind_inv Ha.
    destruct (IH _ _ Hs) as (ts & Hts & Hloop).
    destruct (type_step_loaded feature a0 [] Ha0) as (t & Ht & _).
    exists (t :: ts). simpl. rewrite Ht, Hts. simpl. split; [reflexivity|].
    intros types.
    destruct (type_step_loaded feature a0 types Ha0) as (t' & Ht' & ->).
    assert (t' = t) as -> by congruence.
    destruct (hashable t); simpl; [|reflexivity].
    rewrite Hloop. destruct (forallb hashable ts); [|reflexivity].
    now rewrite <- app_assoc.
Qed.

Lemma is_string_hashable (ts : list json) :
  forallb is_string ts = true -> forallb hashable ts = true.
Proof.
  induction ts as [|t ts IH]; [reflexivity|]. simpl.
  intros Hs. apply andb_true_iff in Hs as [Ht Hts].
  rewrite IH by assumption. now destruct t.
Qed.

Lemma names_of_types (ts : list json) :
  if forallb is_string ts
  then exists names, rmap as_string ts = Ok names
  else rmap as_string ts = Raise TypeError.
Proof.
  induction ts as [|t ts IH]; [now exists []|]. simpl.
  destruct t; simpl; try reflexivity.
  destruct (forallb is_string ts).
  - destruct IH as [names ->]. simpl. eauto.
  - now rewrite IH.
Qed.

Lemma types_text_strings (ts : list json) :
  if forallb is_string ts
  then exists text, types_text ts = Ok text
  else types_text ts = Raise TypeError.
Proof.
  pose proof (names_of_types ts) as Hn. unfold types_text.
  destruct ts as [|t ts]; [simpl; eauto|].
  destruct (forallb is_string (t :: ts)).
  - destruct Hn as [names ->]. simpl. eauto.
  - now rewrite Hn.
Qed.

Lemma load_from_file_len (self : GeoJSONData) (file : result json) :
  snd (load_from_file self file) = true ->
  exists n, py_len (features (fst (load_from_file self file))) = Ok n.
Proof.
  unfold load_from_file. destruct file as [data|e]; [|discriminate].
  unfold load_data.
  destruct (rbind (py_get data "type" (JStr "unknown")) _) as [fs|e]; [|discriminate].
  destruct (py_len fs) as [n|e] eqn:Hn; [|discriminate]. simpl.
  destruct (calculate_bounds fs); [|discriminate]. intros _. simpl. eauto.
Qed.

(** The types the display reads off the features of a successful load. *)
Lemma loaded_types (self : GeoJSONData) (file : result json) :
  snd (load_from_file self file) = true ->
  exists n l ts,
    py_len (features (fst (load_from_file self file))) = Ok n /\
    py_iter (features (fst (load_from_file self file))) = Ok l /\
    rmap geometry_type_of l = Ok ts /\
    rfold type_step [] l
    = if forallb hashable ts then Ok ts else Raise TypeError.
Proof.
  intros Hok. destruct (load_from_file_len self file Hok) as [n Hn].
  pose proof (load_from_file_bounds self file Hok) as Hb.
  set (fs := features (fst (load_from_file self file))) in *.
  exists n. unfold calculate_bounds in Hb.
  destruct (py_truthy fs) eqn:Htruthy; simpl in Hb.
  - rbind_inv Hb. rbind_inv Hb.
    destruct (types_loop_loaded _ _ _ Ha0) as (ts & Hts & Hloop).
    exists a, ts. repeat split; auto.
  - exists [], []. repeat split; auto.
    destruct fs as [| | |s|l|m]; try discriminate.
    + destruct s; [reflexivity | discriminate].
    + destruct l; [reflexivity | discriminate].
    + destruct m; [reflexivity | discriminate].
Qed.

Section WindowFacts.
Context {platform : Platform} {display : Display}.

Lemma update_info_display_status (data : GeoJSONData) (u : ui) :
  status_label (fst (update_info_display data u)) = status_label u /\
  file_path_field (fst (update_info_display data u)) = file_path_field u.
Proof.
  unfold update_info_display.
  destruct (py_len (features data)); [|now split].
  destruct (bounds_text (bounds data)); [|now split].
  destruct (rbind (py_iter (features data)) _); now split.
Qed.

Lemma update_info_display_loaded (self : GeoJSONData) (file : result json) (u : ui) :
  snd (load_from_file self file) = true ->
  exists l ts,
    py_iter (features (fst (load_from_file self file))) = Ok l /\
    rmap geometry_type_of l = Ok ts /\
    snd (update_info_display (fst (load_from_file self file)) u)
    = match bounds_text (bounds (fst (load_from_file self file))) with
      | Raise e => Raise e
      | Ok _ => if forallb is_string ts then Ok tt else Raise TypeError
      end.
Proof.
  intros Hok. destruct (loaded_types self file Hok) as (n & l & ts & Hn & Hl & Hts & Hloop).
  exists l, ts. split; [assumption|]. split; [assumption|].
  unfold update_info_display. rewrite Hn.
  destruct (bounds_text (bounds (fst (load_from_file self file)))); [|reflexivity].
  rewrite Hl. simpl. rewrite Hloop.
  pose proof (types_text_strings ts) as Htext.
  pose proof (is_string_hashable ts) as Hhash.
  destruct (forallb is_string ts).
  - rewrite Hhash by reflexivity. simpl. destruct Htext as [text ->]. reflexivity.
  - destruct (forallb hashable ts); simpl; [now rewrite Htext | reflexivity].
Qed.

(** X17.  After a successful load [_update_info_display] raises what the
    formatting of the bounds raises, if it does ([OverflowError] on an
    integer bound too large for a float); otherwise it raises exactly when
    the geometry type of some feature is not a string, and then it raises
    [TypeError]: such a document passes [load_from_file], which only
    compares the type with the names it knows. *)
Theorem display_after_load (self : GeoJSONData) (file : result json) (u : ui) :
  snd (load_from_file self file) = true ->
  exists l ts,
    py_iter (features (fst (load_from_file self file))) = Ok l /\
    rmap geometry_type_of l = Ok ts /\
    snd (update_info_display (fst (load_from_file self file)) u)
    = match bounds_text (bounds (fst (load_from_file self file))) with
      | Raise e => Raise e
      | Ok _ => if forallb is_string ts then Ok tt else Raise TypeError
      end.
Proof. apply update_info_display_loaded. Qed.

(** X18.  [_on_import] after a successful load: when the bounds can be
    formatted and every geometry type is a string it goes on to
    [_create_stage_objects] and ends as that does; otherwise it raises
    out of [_update_info_display] -- the exception of the formatting, or
    [TypeError] for a type that is not a string -- with the status label
    already saying that the load succeeded and nothing done to the
    stage. *)
Theorem import_after_load (read : string -> result json) (a : app) :
  file_path_field (window a) <> ""%string ->
  snd (load_from_file (geojson_data a) (read (file_path_field (window a)))) = true ->
  let data := fst (load_from_file (geojson_data a) (read (file_path_field (window a)))) in
  exists l ts u,
    py_iter (features data) = Ok l /\
    rmap geometry_type_of l = Ok ts /\
    status_label u = "GeoJSON loaded successfully"%string /\
    on_import read a
    = match bounds_text (bounds data) with
      | Raise e => (mkApp data u (usd_stage a), Raise e)
      | Ok _ =>
          if forallb is_string ts
          then (mkApp data u (fst (create_stage_objects (features data) (usd_stage a))),
                snd (create_stage_objects (features data) (usd_stage a)))
          else (mkApp data u (usd_stage a), Raise TypeError)
      end.
Proof.
  intros Hpath Hok data.
  destruct (update_info_display_loaded (geojson_data a) _
              (set_status (window a) "GeoJSON loaded successfully") Hok)
    as (l & ts & Hl & Hts & Hshow).
  destruct (update_info_display_status data
              (set_status (window a) "GeoJSON loaded successfully")) as [Hstatus _].
  fold data in Hshow, Hl.
  exists l, ts,
    (fst (update_info_display data (set_status (window a) "GeoJSON loaded successfully"))).
  split; [assumption|]. split; [assumption|]. split; [exact Hstatus|].
  unfold on_import.
  destruct (String.eqb_spec (file_path_field (window a)) ""); [contradiction|].
  unfold data in *.
  destruct (load_from_file (geojson_data a) (read (file_path_field (window a))))
    as [d loaded]. simpl in *. subst loaded.
  destruct (update_info_display d _) as [u r]. simpl in *. subst r.
  destruct (bounds_text (bounds d)); [|reflexivity].
  destruct (forallb is_string ts); [|reflexivity].
  now destruct (create_stage_objects (features d) (usd_stage a)).
Qed.

(** X19.  [_on_import] without a path, or with a load that fails, only writes
    the status label: it raises nothing and leaves the three information
    labels and the stage as they were. *)
Theorem import_without_load (read : string -> result json) (a : app) :
  file_path_field (window a) = ""%string \/
  snd (load_from_file (geojson_data a) (read (file_path_field (window a)))) = false ->
  snd (on_import read a) = Ok tt /\
  usd_stage (fst (on_import read a)) = usd_stage a /\
  feature_count_label (window (fst (on_import read a))) = feature_count_label (window a) /\
  bounds_label (window (fst (on_import read a))) = bounds_label (window a) /\
  geometry_types_label (window (fst (on_import read a))) = geometry_types_label (window a).
Proof.
  intros Hcase. unfold on_import.
  destruct (String.eqb_spec (file_path_field (window a)) "") as [E|E];
    [repeat split|].
  destruct Hcase as [Hpath | Hfail]; [contradiction|].
  destruct (load_from_file (geojson_data a) (read (file_path_field (window a))))
    as [d loaded]. simpl in Hfail. subst loaded. repeat split.
Qed.

End WindowFacts.

Lemma display_after_load_witness :
  exists l ts,
    py_iter (features (fst (load_from_file init_data (Ok numbered_type_feature)))) = Ok l /\
    rmap geometry_type_of l = Ok ts /\
    snd (update_info_display (display := blank_display)
           (fst (load_from_file init_data (Ok numbered_type_feature))) startup_ui)
    = match bounds_text (display := blank_display)
              (bounds (fst (load_from_file init_data (Ok numbered_type_feature)))) with
      | Raise e => Raise e
      | Ok _ => if forallb is_string ts then Ok tt else Raise TypeError
      end.
Proof.
  apply (display_after_load (display := blank_display)). reflexivity.
Defined.

Lemma import_after_load_witness :
  exists l ts u,
    py_iter (JArr [numbered_type_feature]) = Ok l /\
    rmap geometry_type_of l = Ok ts /\
    status_label u = "GeoJSON loaded successfully"%string /\
    on_import (platform := identity_platform) (display := blank_display)
      (fun _ => Ok numbered_type_feature) (mkApp init_data startup_ui (Some empty_stage))
    = if forallb is_string ts
      then (mkApp (mkData (JArr [numbered_type_feature])
                     (Some (mkBounds (infinity, infinity) (neg_infinity, neg_infinity)))) u
              (fst (create_stage_objects (H := identity_platform)
                      (JArr [numbered_type_feature]) (Some empty_stage))),
            snd (create_stage_objects (H := identity_platform)
                   (JArr [numbered_type_feature]) (Some empty_stage)))
      else (mkApp (mkData (JArr [numbered_type_feature])
                     (Some (mkBounds (infinity, infinity) (neg_infinity, neg_infinity)))) u
              (Some empty_stage), Raise TypeError).
Proof.
  apply (import_after_load (platform := identity_platform) (display := blank_display)
           (fun _ => Ok numbered_type_feature)
           (mkApp init_data startup_ui (Some empty_stage))).
  - discriminate.
  - reflexivity.
Defined.

Lemma import_without_load_witness :
  snd (on_import (platform := identity_platform) (display := blank_display)
         (fun _ => Raise FileNotFoundError)
         (mkApp init_data startup_ui (Some empty_stage))) = Ok tt.
Proof.
  apply (import_without_load (platform := identity_platform) (display := blank_display)
           (fun _ => Raise FileNotFoundError)
           (mkApp init_data startup_ui (Some empty_stage))).
  right. reflexivity.
Defined.
